(** * Reusable-Data-Table: the view pipeline of [DataTable]

    A shallow embedding of the logic of the [DataTable] component
    (search, per-column filters, sort, pagination, row selection) and of
    the two helpers it relies on, [compareValues] and
    [applyFilterCondition].

    Conventions of the embedding.
    - A JavaScript string is a [string]; the case mapping and the white
      space of the host are modelled on the ASCII range (other bytes are
      left alone by [toLowerCase] and are not white space).
    - A JavaScript number that is the result of [parseFloat], of a
      subtraction or of a comparator is an IEEE 754 binary64 value,
      [SpecFloat.spec_float] at precision 53 and maximal exponent 1024.
    - Array lengths, page numbers, page sizes and row indices are integers
      far below 2^53, where the arithmetic of the host is exact: they are
      in [Z].
    - A field of a record is a string (what [parseCSV] produces), [null],
      or absent ([undefined]).
    - [String.prototype.localeCompare] and [Date.parse] depend on the host
      and its locale: they are the two fields of the class [Host]. *)

From Stdlib Require Import ZArith List Bool Ascii String Lia.
From Stdlib Require Import Floats.SpecFloat.
From stdpp Require Import gmap strings list fin_maps.

Local Open Scope string_scope.
Local Open Scope Z_scope.

(** ** The host: numbers and strings *)

Module JS.

(** *** Numbers *)

Definition number : Type := spec_float.

Definition prec : Z := 53.
Definition emax : Z := 1024.

Definition NaN : number := S754_nan.
Definition zero : number := S754_zero false.

(** [a - b], unary [-a], [a < b], [a > b] on numbers. *)
Definition sub (a b : number) : number := SFsub prec emax a b.
Definition neg (a : number) : number := SFopp a.
Definition lt (a b : number) : bool := SFltb a b.
Definition gt (a b : number) : bool := SFltb b a.

Definition isNaN (a : number) : bool :=
  match a with S754_nan => true | _ => false end.

Definition isFinite (a : number) : bool :=
  match a with
  | S754_zero _ | S754_finite _ _ _ => true
  | S754_infinity _ | S754_nan => false
  end.

(** The real number [m * 10^d] ([m > 0]) rounded to the nearest binary64,
    ties to even. *)
Definition ofDecimal (sign : bool) (m : positive) (d : Z) : number :=
  match d with
  | Zneg k => SFdiv prec emax (S754_finite sign m 0)
                              (S754_finite false (Pos.pow 10 k) 0)
  | Z0 => binary_round prec emax sign m 0
  | Zpos k => binary_round prec emax sign (m * Pos.pow 10 k) 0
  end.

(** *** Characters and strings *)

Definition code (c : ascii) : N := N_of_ascii c.

Definition isDigit (c : ascii) : bool :=
  ((48 <=? code c) && (code c <=? 57))%N.

Definition digitValue (c : ascii) : Z := Z.of_N (code c) - 48.

(** The white space and line terminators of the ASCII range. *)
Definition isWhiteSpace (c : ascii) : bool :=
  ((code c =? 9) || (code c =? 10) || (code c =? 11) || (code c =? 12)
   || (code c =? 13) || (code c =? 32))%N.

Definition lowerChar (c : ascii) : ascii :=
  if ((65 <=? code c) && (code c <=? 90))%N
  then ascii_of_N (code c + 32) else c.

Fixpoint toLowerCase (s : string) : string :=
  match s with
  | EmptyString => EmptyString
  | String c s' => String (lowerChar c) (toLowerCase s')
  end.

Fixpoint trimStart (s : string) : string :=
  match s with
  | EmptyString => EmptyString
  | String c s' => if isWhiteSpace c then trimStart s' else s
  end.

Fixpoint revString (s acc : string) : string :=
  match s with
  | EmptyString => acc
  | String c s' => revString s' (String c acc)
  end.

Definition trimEnd (s : string) : string :=
  revString (trimStart (revString s EmptyString)) EmptyString.

Definition trim (s : string) : string := trimEnd (trimStart s).

(** [s.startsWith(t)], [s.includes(t)], [s.endsWith(t)], [s === t]. *)
Definition startsWith (s t : string) : bool := String.prefix t s.

Fixpoint includes (s t : string) : bool :=
  String.prefix t s ||
  match s with
  | EmptyString => false
  | String _ s' => includes s' t
  end.

Definition endsWith (s t : string) : bool :=
  let n := String.length s in
  let m := String.length t in
  (m <=? n)%nat && String.eqb (String.substring (n - m) m s) t.

Definition strictEq (s t : string) : bool := String.eqb s t.

(** [s.replace(/[^0-9.-]/g, "")]: keep the digits, ['.'] and ['-']. *)
Definition isNumericChar (c : ascii) : bool :=
  isDigit c || Ascii.eqb c "." || Ascii.eqb c "-".

Fixpoint stripNonNumeric (s : string) : string :=
  match s with
  | EmptyString => EmptyString
  | String c s' =>
      if isNumericChar c then String c (stripNonNumeric s')
      else stripNonNumeric s'
  end.

(** *** [parseFloat]

    The longest prefix of the trimmed string that is a [StrDecimalLiteral]
    gives the value; there is none: [NaN]. *)

(** A maximal run of decimal digits: the value accumulated on top of
    [acc], the number of digits read on top of [n], and the rest. *)
Fixpoint digits (s : string) (acc n : Z) : Z * Z * string :=
  match s with
  | EmptyString => (acc, n, s)
  | String c s' =>
      if isDigit c then digits s' (10 * acc + digitValue c) (n + 1)
      else (acc, n, s)
  end.

(** [ExponentPart], when there is one; otherwise the exponent is 0. *)
Definition exponentPart (s : string) : Z :=
  match s with
  | String c s' =>
      if Ascii.eqb c "e" || Ascii.eqb c "E" then
        match s' with
        | String "+" s'' =>
            let '(v, n, _) := digits s'' 0 0 in if 0 <? n then v else 0
        | String "-" s'' =>
            let '(v, n, _) := digits s'' 0 0 in if 0 <? n then - v else 0
        | _ =>
            let '(v, n, _) := digits s' 0 0 in if 0 <? n then v else 0
        end
      else 0
  | EmptyString => 0
  end.

(** [StrUnsignedDecimalLiteral] other than [Infinity]: the digits as an
    integer and the power of ten that scales it. *)
Definition unsignedDecimal (s : string) : option (Z * Z) :=
  let '(i, ni, r) := digits s 0 0 in
  match r with
  | String "." r' =>
      let '(m, nf, r'') := digits r' i 0 in
      if (0 <? ni) || (0 <? nf) then Some (m, exponentPart r'' - nf)
      else None
  | _ => if 0 <? ni then Some (i, exponentPart r) else None
  end.

Definition unsignedLiteral (sign : bool) (s : string) : number :=
  if String.prefix "Infinity" s then S754_infinity sign
  else match unsignedDecimal s with
       | Some (Zpos m, d) => ofDecimal sign m d
       | Some (_, _) => S754_zero sign
       | None => NaN
       end.

Definition parseFloat (s : string) : number :=
  match trimStart s with
  | String "-" r => unsignedLiteral true r
  | String "+" r => unsignedLiteral false r
  | t => unsignedLiteral false t
  end.

End JS.

(** ** The data model *)

(** A field value: [undefined] (absent field), [null], or a string. *)
Inductive value : Type :=
| VUndefined
| VNull
| VString (s : string).

(** [String(v)]. *)
Definition String_ (v : value) : string :=
  match v with
  | VUndefined => "undefined"
  | VNull => "null"
  | VString s => s
  end.

(** [v ?? ""]. *)
Definition orEmpty (v : value) : value :=
  match v with
  | VUndefined | VNull => VString ""
  | VString _ => v
  end.

(** A string is truthy when it is not empty. *)
Definition truthy (s : string) : bool := negb (String.eqb s "").

(** A record maps field keys to values; [r[k]] is [undefined] when the
    record has no field [k]. *)
Definition row : Type := gmap string value.

Definition field (r : row) (k : string) : value := default VUndefined (r !! k).

Inductive FormatType : Type := TText | TNumber | TDate | TCurrency.
Inductive Transform : Type := Uppercase | Lowercase | Capitalize.

Record Format : Type := {
  type : option FormatType;
  transform : option Transform;
  currency : option string;
  decimals : option Z
}.

(** [ColumnConfig], but for [render], which only the markup uses. *)
Record ColumnConfig : Type := {
  key : string;
  header : option string;
  visible : option bool;
  searchable : option bool;
  sortable : option bool;
  filterable : option bool;
  format : option Format;
  width : option Z
}.

Record TableConfig : Type := {
  columns : list ColumnConfig;
  globalSearchDebounceMs : option Z;
  pageSizes : option (list Z);
  defaultPageSize : option Z
}.

Inductive Operator : Type := contains | equals | starts | ends | gt | lt.

Record FilterCondition : Type := { op : Operator; cond_value : string }.

Inductive Direction : Type := asc | desc.

Record SortState : Type := { sort_key : string; dir : option Direction }.

Record MouseEvent : Type := { shiftKey : bool; ctrlKey : bool; metaKey : bool }.

(** The host functions whose result depends on the locale or on the
    engine. *)
Class Host : Type := {
  localeCompare : string -> string -> JS.number;
  Date_parse : string -> JS.number
}.

(** ** [compareValues] *)

Definition compareValues `{Host} (a b : value) (ty : option FormatType)
  : JS.number :=
  match ty with
  | Some TNumber | Some TCurrency =>
      let na := JS.parseFloat (JS.stripNonNumeric (String_ a)) in
      let nb := JS.parseFloat (JS.stripNonNumeric (String_ b)) in
      if negb (JS.isFinite na) || negb (JS.isFinite nb)
      then localeCompare (String_ a) (String_ b)
      else JS.sub na nb
  | Some TDate =>
      let da := Date_parse (String_ a) in
      let db := Date_parse (String_ b) in
      JS.sub (if JS.isNaN da then JS.zero else da)
             (if JS.isNaN db then JS.zero else db)
  | _ => localeCompare (String_ a) (String_ b)
  end.

(** ** [applyFilterCondition] *)

Definition applyFilterCondition (value : string) (cond : FilterCondition)
  : bool :=
  let left := JS.toLowerCase (String_ (orEmpty (VString value))) in
  let right := JS.toLowerCase (String_ (orEmpty (VString (cond_value cond)))) in
  match op cond with
  | contains => JS.includes left right
  | equals => JS.strictEq left right
  | starts => JS.startsWith left right
  | ends => JS.endsWith left right
  | gt => JS.gt (JS.parseFloat left) (JS.parseFloat right)
  | lt => JS.lt (JS.parseFloat left) (JS.parseFloat right)
  end.

(** ** Arrays *)

(** [Array.prototype.slice(start, end)]: a negative index counts from the
    end, and both are clamped to the array. *)
Definition relativeIndex (len k : Z) : Z :=
  if k <? 0 then Z.max (len + k) 0 else Z.min k len.

Definition slice {A : Type} (l : list A) (start end_ : Z) : list A :=
  let len := Z.of_nat (length l) in
  let k := relativeIndex len start in
  let final := relativeIndex len end_ in
  take (Z.to_nat (final - k)) (drop (Z.to_nat k) l).

(** [slice()] without arguments: from 0 to the length. *)
Definition sliceAll {A : Type} (l : list A) : list A :=
  slice l 0 (Z.of_nat (length l)).

(** [Array.prototype.sort(cmp)] is stable: [b] moves before an earlier
    [a] only when [cmp a b > 0]. It is modelled as the stable insertion
    sort; for a comparator that is a consistent ordering every stable sort
    returns this list. *)
Section Sort.
Context {A : Type} (cmp : A -> A -> JS.number).

Fixpoint insertSorted (x : A) (l : list A) : list A :=
  match l with
  | [] => [x]
  | y :: l' =>
      if JS.gt (cmp x y) JS.zero then y :: insertSorted x l' else x :: l
  end.

Definition sort (l : list A) : list A := foldr insertSorted [] l.

End Sort.

(** ** The component: props and state *)

Record Props : Type := { data : list row; config : TableConfig }.

(** The state cells of [DataTable]. [selectedRows] is a [Set<number>]:
    its members in insertion order, without repetition.
    [columnFilters] is an object read through [Object.entries]: its
    entries in order. *)
Record State : Type := {
  searchTerm : string;
  debouncedSearch : string;
  pageSize : Z;
  page : Z;
  selectedRows : list Z;
  columnVisible : gmap string bool;
  columnFilters : list (string * list FilterCondition);
  sortState : SortState
}.

Definition set_page (p : Z) (s : State) : State :=
  {| searchTerm := searchTerm s; debouncedSearch := debouncedSearch s;
     pageSize := pageSize s; page := p; selectedRows := selectedRows s;
     columnVisible := columnVisible s; columnFilters := columnFilters s;
     sortState := sortState s |}.

Definition set_selectedRows (sel : list Z) (s : State) : State :=
  {| searchTerm := searchTerm s; debouncedSearch := debouncedSearch s;
     pageSize := pageSize s; page := page s; selectedRows := sel;
     columnVisible := columnVisible s; columnFilters := columnFilters s;
     sortState := sortState s |}.

Definition set_debouncedSearch (t : string) (s : State) : State :=
  {| searchTerm := searchTerm s; debouncedSearch := t;
     pageSize := pageSize s; page := page s; selectedRows := selectedRows s;
     columnVisible := columnVisible s; columnFilters := columnFilters s;
     sortState := sortState s |}.

(** The debounce timer firing: the search term that the pipeline uses. *)
Definition debounceFire (s : State) : State :=
  set_debouncedSearch (JS.toLowerCase (JS.trim (searchTerm s))) s.

(** The initial visibility map: [map[c.key] = c.visible !== false]. *)
Definition initColumnVisible (cfg : TableConfig) : gmap string bool :=
  fold_left
    (fun m c =>
       <[key c := match visible c with Some false => false | _ => true end]> m)
    (columns cfg) ∅.

Definition visibleColumns (cfg : TableConfig) (s : State)
  : list ColumnConfig :=
  List.filter (fun c => default false (columnVisible s !! key c))
    (columns cfg).

(** ** The view pipeline *)

(** The search stage of [filteredRows]. *)
Definition searchMatches (cols : list ColumnConfig) (term : string) (r : row)
  : bool :=
  existsb
    (fun col =>
       if negb (default false (searchable col)) then false
       else JS.includes
              (JS.toLowerCase (String_ (orEmpty (field r (key col))))) term)
    cols.

Definition searchStage (cols : list ColumnConfig) (term : string)
    (rows : list row) : list row :=
  if truthy term then List.filter (searchMatches cols term) rows else rows.

(** The filter stage: one pass per entry of [columnFilters]. *)
Definition columnMatches (colKey : string) (conditions : list FilterCondition)
    (r : row) : bool :=
  existsb
    (fun cond => applyFilterCondition (String_ (orEmpty (field r colKey))) cond)
    conditions.

Definition filterEntry (rows : list row)
    (entry : string * list FilterCondition) : list row :=
  let '(colKey, conditions) := entry in
  match conditions with
  | [] => rows
  | _ :: _ => List.filter (columnMatches colKey conditions) rows
  end.

Definition filterStage (filters : list (string * list FilterCondition))
    (rows : list row) : list row :=
  fold_left filterEntry filters rows.

(** The sort stage. *)
Definition columnType (col : option ColumnConfig) : option FormatType :=
  match col with
  | Some c => match format c with Some f => type f | None => None end
  | None => None
  end.

Definition sortComparator `{Host} (cols : list ColumnConfig) (st : SortState)
    (a b : row) : JS.number :=
  let col := List.find (fun c => String.eqb (key c) (sort_key st)) cols in
  let cmp :=
    compareValues (field a (sort_key st)) (field b (sort_key st))
      (columnType col) in
  match dir st with
  | Some asc => cmp
  | _ => JS.neg cmp
  end.

Definition sortActive (st : SortState) : bool :=
  truthy (sort_key st) && match dir st with Some _ => true | None => false end.

Definition sortStage `{Host} (cols : list ColumnConfig) (st : SortState)
    (rows : list row) : list row :=
  if sortActive st then sort (sortComparator cols st) rows else rows.

Definition filteredRows `{Host} (p : Props) (s : State) : list row :=
  let rows := sliceAll (data p) in
  let rows :=
    searchStage (visibleColumns (config p) s) (debouncedSearch s) rows in
  let rows := filterStage (columnFilters s) rows in
  sortStage (columns (config p)) (sortState s) rows.

(** ** Pagination *)

(** [Math.ceil(n / d)] for integers, [d <> 0]. *)
Definition ceilDiv (n d : Z) : Z := - ((- n) / d).

Definition totalRows `{Host} (p : Props) (s : State) : Z :=
  Z.of_nat (length (filteredRows p s)).

Definition pagesOf (n size : Z) : Z := Z.max 1 (ceilDiv n size).

Definition totalPages `{Host} (p : Props) (s : State) : Z :=
  pagesOf (totalRows p s) (pageSize s).

(** The effect that runs after a render: a page past the last one is
    set back to the last one. *)
Definition clampEffect `{Host} (p : Props) (s : State) : State :=
  if totalPages p s <? page s then set_page (totalPages p s) s else s.

Definition pageOf {A : Type} (rows : list A) (pg size : Z) : list A :=
  let start := (pg - 1) * size in
  slice rows start (start + size).

Definition pageRows `{Host} (p : Props) (s : State) : list row :=
  pageOf (filteredRows p s) (page s) (pageSize s).

(** The handlers of the pagination bar. *)
Definition firstPage (s : State) : State := set_page 1 s.
Definition prevPage (s : State) : State := set_page (Z.max 1 (page s - 1)) s.
Definition gotoPage `{Host} (p : Props) (requested : Z) (s : State) : State :=
  set_page (Z.min (Z.max 1 requested) (totalPages p s)) s.
Definition nextPage `{Host} (p : Props) (s : State) : State :=
  set_page (Z.min (totalPages p s) (page s + 1)) s.
Definition lastPage `{Host} (p : Props) (s : State) : State :=
  set_page (totalPages p s) s.

(** What a render hands to the markup. *)
Record View : Type := {
  view_rows : list row;
  view_totalRows : Z;
  view_totalPages : Z
}.

Definition view `{Host} (p : Props) (s : State) : View :=
  {| view_rows := pageRows p s;
     view_totalRows := totalRows p s;
     view_totalPages := totalPages p s |}.

(** ** Row selection *)

(** [Set.prototype.has], [add], [delete] and [size] on the members in
    insertion order. *)
Definition has (sel : list Z) (i : Z) : bool := existsb (Z.eqb i) sel.

Definition add (sel : list Z) (i : Z) : list Z :=
  if has sel i then sel else (sel ++ [i])%list.

Definition delete (sel : list Z) (i : Z) : list Z :=
  List.filter (fun j => negb (j =? i)) sel.

Definition size (sel : list Z) : Z := Z.of_nat (length sel).

Definition shiftPressed (event : option MouseEvent) : bool :=
  match event with Some e => shiftKey e | None => false end.

Definition ctrlOrMetaPressed (event : option MouseEvent) : bool :=
  match event with Some e => ctrlKey e || metaKey e | None => false end.

(** The updater that [toggleRowSelection] passes to [setSelectedRows]. *)
Definition selectionUpdater (globalIndex : Z) (event : option MouseEvent)
    (prev : list Z) : list Z :=
  let next := prev in
  if shiftPressed event && (0 <? size next) then
    let last_ := default globalIndex (last next) in
    let start := Z.min last_ globalIndex in
    let end_ := Z.max last_ globalIndex in
    fold_left add (seqZ start (end_ - start + 1)) next
  else if ctrlOrMetaPressed event then
    if has next globalIndex then delete next globalIndex
    else add next globalIndex
  else
    if has next globalIndex && (size next =? 1) then []
    else add [] globalIndex.

Definition toggleRowSelection (indexInPage : Z) (event : option MouseEvent)
    (s : State) : State :=
  let globalIndex := (page s - 1) * pageSize s + indexInPage in
  set_selectedRows (selectionUpdater globalIndex event (selectedRows s)) s.

Definition toggleSelectAllOnPage `{Host} (p : Props) (checked : bool)
    (s : State) : State :=
  let start := (page s - 1) * pageSize s in
  let indices := seqZ start (Z.of_nat (length (pageRows p s))) in
  set_selectedRows
    (fold_left (if checked then add else delete) indices (selectedRows s)) s.

(** ** Arrays as objects

    [filteredRows] builds new arrays with [slice] and [filter] and sorts
    one in place. Here an array is a cell of a store and a variable holds
    its address, so that a write through one variable is seen through
    every alias. *)

Definition ref : Type := nat.
Definition store : Type := list (list row).

Definition deref (σ : store) (a : ref) : list row := default [] (σ !! a).

Definition alloc (xs : list row) (σ : store) : ref * store :=
  (length σ, (σ ++ [xs])%list).

Definition slice_st (a : ref) (σ : store) : ref * store :=
  alloc (sliceAll (deref σ a)) σ.

Definition filter_st (f : row -> bool) (a : ref) (σ : store) : ref * store :=
  alloc (List.filter f (deref σ a)) σ.

(** [sort] writes the sorted elements back into the array itself. *)
Definition sort_st (cmp : row -> row -> JS.number) (a : ref) (σ : store)
  : store :=
  <[a := sort cmp (deref σ a)]> σ.

Definition filterEntry_st (st : ref * store)
    (entry : string * list FilterCondition) : ref * store :=
  let '(rows, σ) := st in
  let '(colKey, conditions) := entry in
  match conditions with
  | [] => (rows, σ)
  | _ :: _ => filter_st (columnMatches colKey conditions) rows σ
  end.

(** [filteredRows] on the store: [dataRef] is the address of the array
    that the caller passed as [data]. *)
Definition filteredRows_st `{Host} (cfg : TableConfig) (s : State)
    (dataRef : ref) (σ : store) : ref * store :=
  let '(rows, σ) := slice_st dataRef σ in
  let '(rows, σ) :=
    if truthy (debouncedSearch s)
    then filter_st (searchMatches (visibleColumns cfg s) (debouncedSearch s))
           rows σ
    else (rows, σ) in
  let '(rows, σ) := fold_left filterEntry_st (columnFilters s) (rows, σ) in
  let σ :=
    if sortActive (sortState s)
    then sort_st (sortComparator (columns cfg) (sortState s)) rows σ
    else σ in
  (rows, σ).

(** ** Sample inputs *)

Module Sample.

Definition one : JS.number := binary_normalize JS.prec JS.emax 1 0 false.

(** A host that collates by code unit and whose [Date.parse] knows no
    format. *)
Definition host : Host :=
  {| localeCompare := fun s t =>
       match String.compare s t with
       | Lt => JS.neg one
       | Eq => JS.zero
       | Gt => one
       end;
     Date_parse := fun _ => JS.NaN |}.

Definition column (k : string) (ty : FormatType) : ColumnConfig :=
  {| key := k; header := None; visible := Some true;
     searchable := Some true; sortable := Some true;
     filterable := Some true;
     format := Some {| type := Some ty; transform := None;
                       currency := None; decimals := None |};
     width := None |}.

Definition cfg : TableConfig :=
  {| columns := [column "bin" TNumber; column "brand" TText];
     globalSearchDebounceMs := Some 300;
     pageSizes := Some [5; 10; 25];
     defaultPageSize := Some 5 |}.

Definition card (bin brand : string) : row :=
  <["bin" := VString bin]> (<["brand" := VString brand]> ∅).

Definition cards : list row :=
  [card "411111" "VISA"; card "510510" "Mastercard"; card "340000" "Amex";
   card "601100" "Discover"; card "352800" "JCB"; card "400000" "Visa";
   card "222100" "MASTERCARD"].

Definition props : Props := {| data := cards; config := cfg |}.

Definition noSort : SortState := {| sort_key := ""; dir := None |}.

(** The state after mounting, at page size 5. *)
Definition initial : State :=
  {| searchTerm := ""; debouncedSearch := ""; pageSize := 5; page := 1;
     selectedRows := []; columnVisible := initColumnVisible cfg;
     columnFilters := []; sortState := noSort |}.

Definition shift : MouseEvent :=
  {| shiftKey := true; ctrlKey := false; metaKey := false |}.
Definition ctrl : MouseEvent :=
  {| shiftKey := false; ctrlKey := true; metaKey := false |}.

End Sample.

(** ** Notions of the specification *)

(** [t] occurs in [s] when both are lowercased. *)
Definition containsIgnoringCase (s t : string) : Prop :=
  exists pre post : string,
    JS.toLowerCase s = (pre ++ JS.toLowerCase t ++ post)%string.

(** The OR/AND law of the filters: every entry with at least one
    condition has a condition that the row's field matches. *)
Definition satisfiesFilters (filters : list (string * list FilterCondition))
    (r : row) : Prop :=
  forall colKey conditions,
    In (colKey, conditions) filters -> conditions <> [] ->
    exists cond,
      In cond conditions /\
      applyFilterCondition (String_ (orEmpty (field r colKey))) cond = true.

(** A sequence of clicks on rows, each with its global index, and the
    index that the last click touched. *)
Definition runClicks (clicks : list (Z * option MouseEvent))
    (sel : list Z) : list Z :=
  fold_left (fun sel click => selectionUpdater (fst click) (snd click) sel)
    clicks sel.

Definition lastTouched (clicks : list (Z * option MouseEvent)) : option Z :=
  option_map fst (last clicks).

(** Two states of one session: the second has a half-typed search box and
    a selection, the inputs of the pipeline are those of the first. *)
Definition typingState : State :=
  {| searchTerm := "vis"; debouncedSearch := ""; pageSize := 5; page := 1;
     selectedRows := [2; 3]; columnVisible := initColumnVisible Sample.cfg;
     columnFilters := []; sortState := Sample.noSort |}.

(** One entry of the filter map as a test on a row. *)
Definition entryPasses (entry : string * list FilterCondition) (r : row)
  : bool :=
  match snd entry with
  | [] => true
  | _ :: _ => columnMatches (fst entry) (snd entry) r
  end.

(** A session in which the only searchable column, [brand], is hidden,
    and the search term ["vi"] is in effect. *)
Definition brandHidden : State :=
  {| searchTerm := "Vi"; debouncedSearch := "vi"; pageSize := 5; page := 1;
     selectedRows := [];
     columnVisible := <["brand" := false]> (initColumnVisible Sample.cfg);
     columnFilters := []; sortState := Sample.noSort |}.

Definition visaCard : row := Sample.card "411111" "VISA".

(** The same session with [brand] shown, and a collection of one card. *)
Definition brandShown : State :=
  {| searchTerm := "Vi"; debouncedSearch := "vi"; pageSize := 5; page := 1;
     selectedRows := [];
     columnVisible := initColumnVisible Sample.cfg;
     columnFilters := []; sortState := Sample.noSort |}.

Definition visaProps : Props := {| data := [visaCard]; config := Sample.cfg |}.

(** Page 10 of a session that has seven rows at page size 5, as after a
    filter has been cleared and set again. *)
Definition overshoot : State :=
  {| searchTerm := ""; debouncedSearch := ""; pageSize := 5; page := 10;
     selectedRows := []; columnVisible := initColumnVisible Sample.cfg;
     columnFilters := []; sortState := Sample.noSort |}.

(** Three clicks with the multi-select modifier: row 3 on, row 10 on,
    row 10 off again. *)
Definition deselectTrace : list (Z * option MouseEvent) :=
  [(3, Some Sample.ctrl); (10, Some Sample.ctrl); (10, Some Sample.ctrl)].

(** The state of the store after some steps of [filteredRows_st] that
    started in [σ0]: the variable [rows] holds an address that [σ0] did
    not have, the arrays of [σ0] are as they were, and [rows] holds
    [xs]. *)
Definition extends (σ0 : store) (st : ref * store) (xs : list row) : Prop :=
  (length σ0 <= fst st < length (snd st))%nat /\
  (forall b : ref, (b < length σ0)%nat -> snd st !! b = σ0 !! b) /\
  deref (snd st) (fst st) = xs.

(** A store whose one array is the sample collection, and the sort of the
    sample by [bin], ascending. *)
Definition callerStore : store := [Sample.cards].

Definition byBin : SortState := {| sort_key := "bin"; dir := Some asc |}.

Definition byBinDescending : SortState :=
  {| sort_key := "bin"; dir := Some desc |}.

Definition sortedByBin : State :=
  {| searchTerm := ""; debouncedSearch := ""; pageSize := 5; page := 1;
     selectedRows := []; columnVisible := initColumnVisible Sample.cfg;
     columnFilters := [("brand", [{| op := contains; cond_value := "a" |}])];
     sortState := byBin |}.

(** ** CSV: [rowsToCsv] and [parseCSV] *)

(** The double quote, the comma, the line feed and the carriage return. *)
Definition dquote : ascii := ascii_of_N 34.
Definition comma : ascii := ascii_of_N 44.
Definition LF : ascii := ascii_of_N 10.
Definition CR : ascii := ascii_of_N 13.

(** [s + c], for [current += ch]. *)
Definition pushChar (s : string) (c : ascii) : string :=
  (s ++ String c EmptyString)%string.

(** [Array.prototype.join]. *)
Fixpoint join (sep : string) (l : list string) : string :=
  match l with
  | [] => EmptyString
  | [x] => x
  | x :: l' => (x ++ sep ++ join sep l')%string
  end.

(** [replace] of every double quote by two of them. *)
Fixpoint escapeQuotes (s : string) : string :=
  match s with
  | EmptyString => EmptyString
  | String c s' =>
      if Ascii.eqb c dquote then String dquote (String dquote (escapeQuotes s'))
      else String c (escapeQuotes s')
  end.

Definition quoted (s : string) : string :=
  String dquote (s ++ String dquote EmptyString)%string.

(** The header line of [rowsToCsv]: the labels between quotes, as they
    are. *)
Definition csvHeader (cols : list ColumnConfig) : string :=
  join (String comma EmptyString)
    (map (fun c => quoted (default (key c) (header c))) cols).

(** One line of [rowsToCsv]: the fields between quotes, their quotes
    doubled. *)
Definition csvLine (cols : list ColumnConfig) (r : row) : string :=
  join (String comma EmptyString)
    (map (fun c => quoted (escapeQuotes (String_ (orEmpty (field r (key c))))))
       cols).

Definition csvLines (rows : list row) (cols : list ColumnConfig)
  : list string :=
  csvHeader cols :: map (csvLine cols) rows.

Definition rowsToCsv (rows : list row) (cols : list ColumnConfig) : string :=
  join (String LF EmptyString) (csvLines rows cols).

(** The loop of [parseLine]: [fields] and [current] as in the source; on
    a doubled quote inside quotes the loop steps over two characters. *)
Fixpoint parseLineLoop (line : string) (fields : list string)
    (current : string) (inQuotes : bool) : list string :=
  match line with
  | EmptyString => (fields ++ [current])%list
  | String ch rest =>
      if Ascii.eqb ch dquote then
        match rest with
        | String ch' rest' =>
            if inQuotes && Ascii.eqb ch' dquote
            then parseLineLoop rest' fields (pushChar current dquote) inQuotes
            else parseLineLoop rest fields current (negb inQuotes)
        | EmptyString => parseLineLoop rest fields current (negb inQuotes)
        end
      else if Ascii.eqb ch comma && negb inQuotes
      then parseLineLoop rest (fields ++ [current])%list EmptyString inQuotes
      else parseLineLoop rest fields (pushChar current ch) inQuotes
  end.

Definition parseLine (line : string) : list string :=
  map JS.trim (parseLineLoop line [] EmptyString false).

(** [text.split(/\r\n|\n/)]: [current] is the line being read. *)
Fixpoint splitLoop (text : string) (current : string) : list string :=
  match text with
  | EmptyString => [current]
  | String c rest =>
      if Ascii.eqb c LF then current :: splitLoop rest EmptyString
      else if Ascii.eqb c CR then
        match rest with
        | String c' rest' =>
            if Ascii.eqb c' LF then current :: splitLoop rest' EmptyString
            else splitLoop rest (pushChar current c)
        | EmptyString => splitLoop rest (pushChar current c)
        end
      else splitLoop rest (pushChar current c)
  end.

Definition splitLines (text : string) : list string :=
  splitLoop text EmptyString.

(** The one key that an assignment to a plain object does not define:
    it names the accessor of the prototype, which ignores a boolean or a
    string. *)
Definition protoKey : string := "__proto__".

(** The assignment of a string to the field [k] of a plain object: the
    field is defined, but for the key [__proto__], where nothing
    happens. *)
Definition assign (k : string) (v : value) (obj : row) : row :=
  if String.eqb k protoKey then obj else <[k := v]> obj.

(** [row[i]] of an array of strings. *)
Definition cell (fields : list string) (i : nat) : value :=
  match fields !! i with
  | Some f => VString f
  | None => VUndefined
  end.

(** One turn of the inner loop of [parseCSV]: the field [headers[i]] of
    [obj] is assigned the trimmed string form of [row[i]], the empty
    string when the line has no such cell. *)
Definition recordStep (headers fields : list string) (obj : row) (i : nat)
  : row :=
  match headers !! i with
  | Some h =>
      assign h (VString (JS.trim (String_ (orEmpty (cell fields i))))) obj
  | None => obj
  end.

(** The inner loop of [parseCSV], for [i] from 0 to the number of
    headers. *)
Definition recordOf (headers fields : list string) : row :=
  fold_left (recordStep headers fields) (seq 0 (length headers)) ∅.

Definition parseCSV (text : string) : list row :=
  if negb (truthy text) then []
  else
    let rawLines :=
      List.filter (fun l => (0 <? String.length l)%nat) (splitLines text) in
    let lines := map parseLine rawLines in
    match lines with
    | [] => []
    | rawHeaders :: rest =>
        let headers :=
          map (fun h => JS.toLowerCase (JS.trim (String_ (orEmpty (VString h)))))
            rawHeaders in
        map (recordOf headers) rest
    end.

(** ** The other handlers of the component *)

Definition set_searchTerm (t : string) (s : State) : State :=
  {| searchTerm := t; debouncedSearch := debouncedSearch s;
     pageSize := pageSize s; page := page s; selectedRows := selectedRows s;
     columnVisible := columnVisible s; columnFilters := columnFilters s;
     sortState := sortState s |}.

Definition set_columnVisible (m : gmap string bool) (s : State) : State :=
  {| searchTerm := searchTerm s; debouncedSearch := debouncedSearch s;
     pageSize := pageSize s; page := page s; selectedRows := selectedRows s;
     columnVisible := m; columnFilters := columnFilters s;
     sortState := sortState s |}.

Definition set_columnFilters (f : list (string * list FilterCondition))
    (s : State) : State :=
  {| searchTerm := searchTerm s; debouncedSearch := debouncedSearch s;
     pageSize := pageSize s; page := page s; selectedRows := selectedRows s;
     columnVisible := columnVisible s; columnFilters := f;
     sortState := sortState s |}.

Definition set_sortState (st : SortState) (s : State) : State :=
  {| searchTerm := searchTerm s; debouncedSearch := debouncedSearch s;
     pageSize := pageSize s; page := page s; selectedRows := selectedRows s;
     columnVisible := columnVisible s; columnFilters := columnFilters s;
     sortState := st |}.

(** *** The filter map

    [columnFilters] is an object whose keys are column keys. The entries
    are kept in the order in which the keys were first set; the filter
    stage returns the same rows for every order of the entries. *)

(** [prev[columnKey]]. *)
Fixpoint lookupEntry (columnKey : string)
    (entries : list (string * list FilterCondition))
  : option (list FilterCondition) :=
  match entries with
  | [] => None
  | (k, v) :: rest =>
      if String.eqb k columnKey then Some v else lookupEntry columnKey rest
  end.

(** The object [prev] spread, with [columnKey] set to [arr]. *)
Fixpoint setEntry (columnKey : string) (arr : list FilterCondition)
    (entries : list (string * list FilterCondition))
  : list (string * list FilterCondition) :=
  match entries with
  | [] => [(columnKey, arr)]
  | (k, v) :: rest =>
      if String.eqb k columnKey then (columnKey, arr) :: rest
      else (k, v) :: setEntry columnKey arr rest
  end.

(** The condition that [addFilterCondition] appends. *)
Definition blankCondition : FilterCondition :=
  {| op := contains; cond_value := EmptyString |}.

Definition addFilterCondition (columnKey : string) (s : State) : State :=
  let prev := columnFilters s in
  set_columnFilters
    (setEntry columnKey
       (default [] (lookupEntry columnKey prev) ++ [blankCondition])%list prev)
    s.

(** [arr.splice(index, 1)] for an index from 0: past the end nothing is
    removed. *)
Definition splice1 {A : Type} (index : nat) (arr : list A) : list A :=
  (take index arr ++ drop (S index) arr)%list.

Definition removeFilterCondition (columnKey : string) (index : nat)
    (s : State) : State :=
  let prev := columnFilters s in
  set_columnFilters
    (setEntry columnKey
       (splice1 index (sliceAll (default [] (lookupEntry columnKey prev))))
       prev)
    s.

(** *** The sort header *)

Definition unsorted : SortState := {| sort_key := EmptyString; dir := None |}.

(** A click on the header of [col]. *)
Definition headerClick (col : ColumnConfig) (s : State) : State :=
  if default false (sortable col) then
    let prev := sortState s in
    set_sortState
      (if negb (String.eqb (sort_key prev) (key col))
       then {| sort_key := key col; dir := Some asc |}
       else match dir prev with
            | Some asc => {| sort_key := key col; dir := Some desc |}
            | _ => unsorted
            end)
      s
  else s.

(** *** Column visibility *)

Definition showAllColumns (s : State) : State :=
  set_columnVisible ((fun _ : bool => true) <$> columnVisible s) s.

Definition hideAllColumns (s : State) : State :=
  set_columnVisible ((fun _ : bool => false) <$> columnVisible s) s.

(** *** The select-all box *)

(** Whether the box in the header row is checked. *)
Definition selectAllChecked `{Host} (p : Props) (s : State) : bool :=
  let n := Z.of_nat (length (pageRows p s)) in
  (0 <? n) &&
  forallb (fun i => has (selectedRows s) ((page s - 1) * pageSize s + i))
    (seqZ 0 n).

(** *** The search box and its timer

    At most one timeout is pending; it holds the text of the search box
    at the time it was set. *)
Record Session : Type := { state : State; timer : option string }.

(** The search box changes: the page goes back to 1, and when the text
    is a new one the pending timeout is cleared and another one set. *)
Definition onSearchChange (text : string) (ss : Session) : Session :=
  {| state := set_page 1 (set_searchTerm text (state ss));
     timer := if String.eqb text (searchTerm (state ss)) then timer ss
              else Some text |}.

(** The quiet period has passed: the pending timeout runs. *)
Definition timerFires (ss : Session) : Session :=
  match timer ss with
  | Some text =>
      {| state := set_debouncedSearch (JS.toLowerCase (JS.trim text)) (state ss);
         timer := None |}
  | None => ss
  end.



(** The label of a column in the exported header. *)
Definition label (c : ColumnConfig) : string := default (key c) (header c).

(** No character of [s] is [c]. *)
Definition lacks (c : ascii) (s : string) : Prop :=
  ~ In c (list_ascii_of_string s).

(** *** The pagination bar as events *)

(** [parseInt(s, 10)]: white space is skipped, a sign is read, and the
    longest run of decimal digits gives the value; without a digit the
    result is NaN, here [None]. (The value goes through [Math.max] and
    [Math.min] against integers below 2^53, which its rounding to a
    binary64 does not change.) *)
Definition parseInt10 (s : string) : option Z :=
  let t := JS.trimStart s in
  let '(sign, rest) :=
    match t with
    | String "-" r => (-1, r)
    | String "+" r => (1, r)
    | _ => (1, t)
    end in
  let '(v, n, _) := JS.digits rest 0 0 in
  if 0 <? n then Some (sign * v) else None.

(** The number that the page box hands to the clamp: [parseInt] of its
    text, of ["1"] when the text is empty. *)
Definition pageInput (text : string) : option Z :=
  parseInt10 (if truthy text then text else "1").

Inductive PageEvent : Type :=
| FirstPage
| PrevPage
| TypePage (text : string)
| NextPage
| LastPage
| ClampEffect.

(** One event of the pagination bar. A text in the page box that does not
    parse makes the page NaN, which [State] does not hold: [None]. *)
Definition applyPageEvent `{Host} (p : Props) (s : State) (e : PageEvent)
  : option State :=
  match e with
  | FirstPage => Some (firstPage s)
  | PrevPage => Some (prevPage s)
  | TypePage text =>
      match pageInput text with
      | Some requested => Some (gotoPage p requested s)
      | None => None
      end
  | NextPage => Some (nextPage p s)
  | LastPage => Some (lastPage p s)
  | ClampEffect => Some (clampEffect p s)
  end.

Fixpoint runPageEvents `{Host} (p : Props) (events : list PageEvent)
    (s : State) : option State :=
  match events with
  | [] => Some s
  | e :: events' =>
      match applyPageEvent p s e with
      | Some s' => runPageEvents p events' s'
      | None => None
      end
  end.

(** Every text typed into the page box parses to an integer. *)
Definition typedPagesParse (events : list PageEvent) : Prop :=
  forall text, In (TypePage text) events -> is_Some (pageInput text).

(** The filter map without the entry of [columnKey]. *)
Definition withoutColumn (columnKey : string)
    (filters : list (string * list FilterCondition))
  : list (string * list FilterCondition) :=
  List.filter (fun e => negb (String.eqb (fst e) columnKey)) filters.

(** A session with one condition on [brand], and a column that cannot be
    sorted. *)
Definition visaOnly : State :=
  {| searchTerm := ""; debouncedSearch := ""; pageSize := 5; page := 1;
     selectedRows := []; columnVisible := initColumnVisible Sample.cfg;
     columnFilters := [("brand", [{| op := contains; cond_value := "visa" |}])];
     sortState := Sample.noSort |}.

(** The columns that the configuration does not hide. *)
Definition shownByConfig (c : ColumnConfig) : bool :=
  match visible c with
  | Some false => false
  | _ => true
  end.

(** A configuration that hides [bin], and the state it mounts in. *)
Definition cfgHidingBin : TableConfig :=
  {| columns :=
       [{| key := "bin"; header := Some "BIN"; visible := Some false;
           searchable := Some true; sortable := Some true;
           filterable := Some true; format := None; width := None |};
        Sample.column "brand" TText];
     globalSearchDebounceMs := None; pageSizes := None;
     defaultPageSize := None |}.

Definition mountedHidingBin : State :=
  {| searchTerm := ""; debouncedSearch := ""; pageSize := 10; page := 1;
     selectedRows := []; columnVisible := initColumnVisible cfgHidingBin;
     columnFilters := []; sortState := Sample.noSort |}.

(** Typing [a], [ab], [abc] into the search box. *)
Definition typedAbc : list string := ["a"; "ab"; "abc"].

Definition typeAll (texts : list string) (ss : Session) : Session :=
  fold_left (fun ss text => onSearchChange text ss) texts ss.

(** The session once the timeout set at the mount has run. *)
Definition mounted : Session :=
  {| state := Sample.initial; timer := None |}.

(** A selection on page 2 of the sample at page size 5, with rows of
    page 1 selected as well. *)
Definition pageTwo : State :=
  {| searchTerm := ""; debouncedSearch := ""; pageSize := 5; page := 2;
     selectedRows := [1; 6; 3]; columnVisible := initColumnVisible Sample.cfg;
     columnFilters := []; sortState := Sample.noSort |}.

(** The string form of the cell of row [r] under column [c], as
    [rowsToCsv] reads it. *)
Definition cellString (r : row) (c : ColumnConfig) : string :=
  String_ (orEmpty (field r (key c))).

(** A row with a comma, quotes and outer blanks in its fields. *)
Definition awkwardCard : row :=
  Sample.card " 34,00 " (String dquote ("Amex" ++ String dquote ", gold"))%string.

(** The record that a line of the export stands for: under the
    lowercased, trimmed label of each column, the trimmed cell. *)
Definition exportedRecord (cols : list ColumnConfig) (r : row) : row :=
  fold_left
    (fun (obj : row) (c : ColumnConfig) =>
       <[JS.toLowerCase (JS.trim (label c))
         := VString (JS.trim (cellString r c))]> obj)
    cols ∅.


(** A line of fields, each between quotes with its quotes doubled. *)
Definition csvFields (values : list string) : string :=
  join (String comma EmptyString)
    (map (fun v => quoted (escapeQuotes v)) values).

(* ===================================================================== *)
(** * Properties *)

(** ** Determinism of the view *)

Section Determinism.
Context `{Host}.

Lemma filteredRows_ext (p : Props) (s1 s2 : State) :
  visibleColumns (config p) s1 = visibleColumns (config p) s2 ->
  debouncedSearch s1 = debouncedSearch s2 ->
  columnFilters s1 = columnFilters s2 ->
  sortState s1 = sortState s2 ->
  filteredRows p s1 = filteredRows p s2.
Proof.
  intros Hvis Hterm Hfil Hsort. unfold filteredRows.
  now rewrite Hvis, Hterm, Hfil, Hsort.
Qed.

(** The page does not feed back into the filtered rows. *)
Lemma filteredRows_set_page (p : Props) (s : State) (pg : Z) :
  filteredRows p (set_page pg s) = filteredRows p s.
Proof. reflexivity. Qed.

Lemma totalPages_set_page (p : Props) (s : State) (pg : Z) :
  totalPages p (set_page pg s) = totalPages p s.
Proof. reflexivity. Qed.

(** C1, as the code has it. The view (the rows of the page, the number of
    filtered rows, the number of pages) is determined by the record
    collection, the column configuration, the columns currently shown,
    the effective search term, the filter map, the sort state, the page
    and the page size: two evaluations that agree on these return the
    same view, whatever the rest of the state (the search box, the
    selection). *)
Theorem view_deterministic (p : Props) (s1 s2 : State) :
  visibleColumns (config p) s1 = visibleColumns (config p) s2 ->
  debouncedSearch s1 = debouncedSearch s2 ->
  columnFilters s1 = columnFilters s2 ->
  sortState s1 = sortState s2 ->
  page s1 = page s2 ->
  pageSize s1 = pageSize s2 ->
  view p s1 = view p s2.
Proof.
  intros Hvis Hterm Hfil Hsort Hpage Hsize.
  pose proof (filteredRows_ext p s1 s2 Hvis Hterm Hfil Hsort) as Hrows.
  unfold view, pageRows, totalPages, totalRows.
  now rewrite Hrows, Hpage, Hsize.
Qed.

End Determinism.

Lemma view_deterministic_witness :
  @view Sample.host Sample.props Sample.initial
  = @view Sample.host Sample.props typingState.
Proof.
  apply (@view_deterministic Sample.host Sample.props Sample.initial
           typingState); reflexivity.
Defined.

(** C1, as the claim has it, fails on the visibility of a column: two
    states of one table with the same collection, configuration, effective
    search term, filter map, sort state, page and page size, one with the
    column [brand] hidden and one with it shown, have different views (no
    row against one row). *)
Lemma view_depends_on_visibility :
  debouncedSearch brandHidden = debouncedSearch brandShown /\
  columnFilters brandHidden = columnFilters brandShown /\
  sortState brandHidden = sortState brandShown /\
  page brandHidden = page brandShown /\
  pageSize brandHidden = pageSize brandShown /\
  @view Sample.host visaProps brandHidden
  <> @view Sample.host visaProps brandShown.
Proof.
  repeat (split; [reflexivity|]).
  intros Hview.
  assert (Hrows : @totalRows Sample.host visaProps brandHidden
                  = @totalRows Sample.host visaProps brandShown)
    by exact (f_equal view_totalRows Hview).
  vm_compute in Hrows. discriminate Hrows.
Qed.

(** ** The filter stage *)

Lemma filterEntry_filter rows entry :
  filterEntry rows entry = List.filter (entryPasses entry) rows.
Proof.
  destruct entry as [colKey [|c cs]]; cbn.
  - symmetry. apply forallb_filter_id. now apply forallb_forall.
  - reflexivity.
Qed.

Lemma filter_filter_andb {A} (f g : A -> bool) (l : list A) :
  List.filter g (List.filter f l) = List.filter (fun x => f x && g x) l.
Proof.
  induction l as [|x l IH]; cbn; [reflexivity|].
  destruct (f x); cbn; [destruct (g x)|]; now rewrite IH.
Qed.

Lemma filterStage_filter filters : forall rows,
  filterStage filters rows
  = List.filter (fun r => forallb (fun e => entryPasses e r) filters) rows.
Proof.
  unfold filterStage.
  induction filters as [|e filters IH]; intros rows; cbn.
  - symmetry. apply forallb_filter_id. now apply forallb_forall.
  - rewrite IH, filterEntry_filter. apply filter_filter_andb.
Qed.

Lemma entryPasses_spec colKey conditions r :
  entryPasses (colKey, conditions) r = true <->
  (conditions <> [] ->
   exists cond,
     In cond conditions /\
     applyFilterCondition (String_ (orEmpty (field r colKey))) cond = true).
Proof.
  unfold entryPasses, columnMatches; cbn [fst snd].
  destruct conditions as [|c cs].
  - split; [intros _ Hne; now destruct Hne | reflexivity].
  - rewrite existsb_exists. split.
    + intros Hex _. exact Hex.
    + intros Hex. apply Hex. discriminate.
Qed.

(** C2. The filter stage keeps, in order, the rows that pass, and a row
    passes exactly when every column that has at least one condition has
    a condition that matches the row's value for that column; a column
    without conditions does not constrain. *)
Theorem filterStage_or_within_and_across
    (filters : list (string * list FilterCondition)) (rows : list row) :
  exists keep : row -> bool,
    filterStage filters rows = List.filter keep rows /\
    forall r, keep r = true <-> satisfiesFilters filters r.
Proof.
  exists (fun r => forallb (fun e => entryPasses e r) filters).
  split; [apply filterStage_filter|].
  intros r. rewrite forallb_forall. unfold satisfiesFilters. split.
  - intros Hall colKey conditions Hin.
    apply entryPasses_spec. now apply Hall.
  - intros Hsat [colKey conditions] Hin.
    apply entryPasses_spec. now apply Hsat.
Qed.

(** ** The search stage *)

Lemma append_cons (c : ascii) (s t : string) :
  (String c s ++ t)%string = String c (s ++ t)%string.
Proof. reflexivity. Qed.

Lemma prefix_spec (t s : string) :
  String.prefix t s = true <-> exists post, s = (t ++ post)%string.
Proof.
  revert s. induction t as [|c t IH]; intros s.
  - split; [intros _; now exists s | intros _; now destruct s].
  - destruct s as [|d s]; cbn.
    + split; [discriminate | intros [post Hp]; discriminate].
    + destruct (ascii_dec c d) as [->|Hne].
      * rewrite IH. split; intros [post Hp]; exists post.
        -- now rewrite append_cons, <- Hp.
        -- rewrite append_cons in Hp. now injection Hp.
      * split; [discriminate|]. intros [post Hp].
        rewrite append_cons in Hp. injection Hp as Hcd _.
        now destruct Hne.
Qed.

Lemma includes_spec (s t : string) :
  JS.includes s t = true <->
  exists pre post, s = (pre ++ t ++ post)%string.
Proof.
  induction s as [|c s IH]; cbn [JS.includes];
    rewrite orb_true_iff, prefix_spec.
  - split.
    + intros [[post Hp]|Hf]; [now exists "", post | discriminate].
    + intros [pre [post Hp]]. left.
      destruct pre; [now exists post | discriminate].
  - rewrite IH. split.
    + intros [[post Hp]|[pre [post Hp]]].
      * now exists "", post.
      * exists (String c pre), post. now rewrite append_cons, <- Hp.
    + intros [[|d pre] [post Hp]].
      * left. now exists post.
      * right. rewrite append_cons in Hp. injection Hp as _ Hp.
        now exists pre, post.
Qed.

Lemma visibleColumns_spec (cfg : TableConfig) (s : State) (col : ColumnConfig) :
  In col (visibleColumns cfg s) <->
  In col (columns cfg) /\ columnVisible s !! key col = Some true.
Proof.
  unfold visibleColumns. rewrite filter_In.
  destruct (columnVisible s !! key col) as [[|]|]; cbn; intuition congruence.
Qed.

Lemma truthy_spec (t : string) : truthy t = true <-> t <> "".
Proof.
  unfold truthy. destruct (String.eqb_spec t ""); cbn; intuition congruence.
Qed.

Lemma searchMatches_spec (cols : list ColumnConfig) (term : string) (r : row) :
  searchMatches cols term r = true <->
  exists col,
    In col cols /\ searchable col = Some true /\
    JS.includes (JS.toLowerCase (String_ (orEmpty (field r (key col))))) term
    = true.
Proof.
  unfold searchMatches. rewrite existsb_exists.
  split; intros [col [Hin Hcol]]; exists col; (split; [exact Hin|]).
  - destruct (searchable col) as [[|]|]; cbn in Hcol;
      [now split | discriminate | discriminate].
  - destruct Hcol as [-> Hinc]. exact Hinc.
Qed.

(** C3, as the code has it. After the debounce has fired on the text of
    the search box, a row survives a non-empty effective term exactly when
    some column that is currently visible and marked searchable holds a
    value that contains the trimmed text, case ignored; a searchable
    column that is hidden does not count. With the empty effective term
    the stage returns its input. *)
Theorem searchStage_visible_searchable
    (cfg : TableConfig) (s0 : State) (rows : list row) :
  let s := debounceFire s0 in
  (debouncedSearch s <> "" ->
   forall r,
     In r (searchStage (visibleColumns cfg s) (debouncedSearch s) rows) <->
     In r rows /\
     exists col,
       In col (columns cfg) /\
       columnVisible s !! key col = Some true /\
       searchable col = Some true /\
       containsIgnoringCase (String_ (orEmpty (field r (key col))))
         (JS.trim (searchTerm s0)))
  /\ (debouncedSearch s = "" ->
      searchStage (visibleColumns cfg s) (debouncedSearch s) rows = rows).
Proof.
  cbn zeta. split.
  - intros Hne r. unfold searchStage.
    apply truthy_spec in Hne. rewrite Hne, filter_In, searchMatches_spec.
    unfold containsIgnoringCase. cbn [debounceFire debouncedSearch
      set_debouncedSearch columnVisible].
    split.
    + intros [Hin [col [Hcol [Hs Hinc]]]]. split; [exact Hin|].
      apply visibleColumns_spec in Hcol as [Hcol Hvis].
      exists col. repeat split; try assumption.
      now apply includes_spec.
    + intros [Hin [col [Hcol [Hvis [Hs Hinc]]]]]. split; [exact Hin|].
      exists col. split; [now apply visibleColumns_spec|].
      split; [exact Hs|]. now apply includes_spec.
  - intros Hempty. unfold searchStage. now rewrite Hempty.
Qed.

Lemma searchStage_visible_searchable_witness :
  In visaCard
    (searchStage (visibleColumns Sample.cfg (debounceFire typingState))
       (debouncedSearch (debounceFire typingState)) Sample.cards).
Proof.
  apply (proj1 (searchStage_visible_searchable Sample.cfg typingState
                  Sample.cards)).
  - vm_compute. discriminate.
  - split; [now left|].
    exists (Sample.column "brand" TText).
    split; [right; now left|].
    split; [reflexivity|]. split; [reflexivity|].
    now exists "", "a".
Defined.

(** C3, as the claim has it, fails on a hidden column: [brand] is marked
    searchable and holds ["VISA"], which contains the term ["vi"] when case
    is ignored, and the row does not survive the search. *)
Lemma searchStage_skips_hidden_column :
  debouncedSearch brandHidden <> "" /\
  In visaCard [visaCard] /\
  (exists col,
     In col (columns Sample.cfg) /\
     searchable col = Some true /\
     containsIgnoringCase (String_ (orEmpty (field visaCard (key col))))
       (debouncedSearch brandHidden)) /\
  ~ In visaCard
      (searchStage (visibleColumns Sample.cfg brandHidden)
         (debouncedSearch brandHidden) [visaCard]).
Proof.
  split; [discriminate|]. split; [now left|]. split.
  - exists (Sample.column "brand" TText).
    split; [right; now left|]. split; [reflexivity|].
    now exists "", "sa".
  - vm_compute. tauto.
Qed.

(** ** Pagination *)

Lemma ceilDiv_spec (n d : Z) :
  0 < d -> (ceilDiv n d - 1) * d < n <= ceilDiv n d * d.
Proof.
  intros Hd. unfold ceilDiv.
  pose proof (Z.div_mod (- n) d ltac:(lia)) as Hdm.
  pose proof (Z.mod_pos_bound (- n) d Hd) as Hb.
  nia.
Qed.

Lemma pagesOf_pos (n d : Z) : 1 <= pagesOf n d.
Proof. unfold pagesOf. lia. Qed.

Lemma relativeIndex_nonneg (len k : Z) :
  0 <= k -> relativeIndex len k = Z.min k len.
Proof.
  intros Hk. unfold relativeIndex.
  destruct (Z.ltb_spec k 0); [lia | reflexivity].
Qed.

(** [slice] from a non-negative start: the elements at
    [start, start + size), as far as the array goes. *)
Lemma slice_lookup {A : Type} (l : list A) (start size : Z) (k : nat) :
  0 <= start -> 0 <= size ->
  slice l start (start + size) !! k
  = if bool_decide (Z.of_nat k < size)
    then l !! (Z.to_nat start + k)%nat else None.
Proof.
  intros Hstart Hsize. unfold slice.
  rewrite !relativeIndex_nonneg by lia.
  rewrite lookup_take, lookup_drop.
  case_bool_decide as Hk; case_decide as Hn.
  - destruct (Z.le_gt_cases (Z.of_nat (length l)) start).
    + rewrite !lookup_ge_None_2 by lia. reflexivity.
    + f_equal. lia.
  - destruct (Z.le_gt_cases (Z.of_nat (length l)) start).
    + rewrite lookup_ge_None_2 by lia. reflexivity.
    + rewrite lookup_ge_None_2 by lia. reflexivity.
  - lia.
  - reflexivity.
Qed.

Lemma sliceAll_id {A : Type} (l : list A) : sliceAll l = l.
Proof.
  apply list_eq. intros k. unfold sliceAll.
  pose proof (slice_lookup l 0 (Z.of_nat (length l)) k) as Hs.
  rewrite Z.add_0_l in Hs. rewrite Hs by lia.
  case_bool_decide as Hk; [reflexivity|].
  symmetry. apply lookup_ge_None_2. lia.
Qed.

Section Pagination.
Context `{Host}.

(** The page stays between 1 and the number of pages under every handler
    of the pagination bar, and the effect brings it back under the number
    of pages. *)
Lemma page_handlers_in_range (p : Props) (s : State) (requested : Z) :
  1 <= page s <= totalPages p s ->
  1 <= page (firstPage s) <= totalPages p s /\
  1 <= page (prevPage s) <= totalPages p s /\
  1 <= page (gotoPage p requested s) <= totalPages p s /\
  1 <= page (nextPage p s) <= totalPages p s /\
  1 <= page (lastPage p s) <= totalPages p s.
Proof.
  intros Hpage. cbn [firstPage prevPage gotoPage nextPage lastPage set_page page].
  lia.
Qed.

Lemma clampEffect_in_range (p : Props) (s : State) :
  1 <= page s ->
  1 <= page (clampEffect p s) <= totalPages p (clampEffect p s).
Proof.
  intros Hpage. unfold clampEffect.
  pose proof (pagesOf_pos (totalRows p s) (pageSize s)) as Hpos.
  fold (totalPages p s) in Hpos.
  destruct (Z.ltb_spec (totalPages p s) (page s)).
  - rewrite totalPages_set_page. cbn [set_page page]. lia.
  - lia.
Qed.

(** C4. With a positive page size: the number of pages is the larger of 1
    and the ceiling of the number of filtered rows over the page size; the
    page-number handler clamps a request below 1 to 1 and one past the
    last page to the last page, and the effect after a render sets a page
    past the last one back to the last one; the rows of a page (from 1 up)
    are those at [(page-1)*pageSize, page*pageSize), as far as the
    filtered rows go. For seven rows at page size 5 and page 10 the
    clamped page is 2, there are 2 pages, and the page is rows[5:7]. *)
Theorem pagination_clamp_and_slice (p : Props) (s : State) (requested : Z) :
  0 < pageSize s ->
  let n := totalRows p s in
  let pages := totalPages p s in
  (exists c, pages = Z.max 1 c /\ (c - 1) * pageSize s < n <= c * pageSize s)
  /\ page (gotoPage p requested s)
     = (if requested <? 1 then 1
        else if pages <? requested then pages else requested)
  /\ page (clampEffect p s) = (if pages <? page s then pages else page s)
  /\ (1 <= page s ->
      forall k : nat,
        pageRows p s !! k
        = if bool_decide (Z.of_nat k < pageSize s)
          then filteredRows p s
                 !! (Z.to_nat ((page s - 1) * pageSize s) + k)%nat
          else None)
  /\ (n = 7 -> pageSize s = 5 -> page s = 10 ->
      page (clampEffect p s) = 2 /\ pages = 2 /\
      pageRows p (clampEffect p s) = slice (filteredRows p s) 5 7).
Proof.
  intros Hsize n pages.
  assert (Hpos : 1 <= pages) by apply pagesOf_pos.
  split; [|split; [|split; [|split]]].
  - exists (ceilDiv n (pageSize s)). split; [reflexivity|].
    now apply ceilDiv_spec.
  - cbn [gotoPage set_page page]. fold pages.
    destruct (Z.ltb_spec requested 1); [lia|].
    destruct (Z.ltb_spec pages requested); lia.
  - unfold clampEffect. fold pages.
    destruct (Z.ltb_spec pages (page s)); reflexivity.
  - intros Hpage k. unfold pageRows, pageOf.
    apply slice_lookup; nia.
  - intros Hn Hps Hpg.
    assert (Hpages : pages = 2).
    { unfold pages, totalPages. fold n. rewrite Hn, Hps. reflexivity. }
    unfold clampEffect. fold pages. rewrite Hpages, Hpg.
    change (2 <? 10) with true. cbv iota.
    split; [reflexivity|]. split; [reflexivity|].
    unfold pageRows, pageOf. rewrite filteredRows_set_page.
    cbn [page pageSize set_page]. rewrite Hps.
    unfold slice. fold (totalRows p s). fold n. rewrite Hn. reflexivity.
Qed.

End Pagination.

Lemma pagination_clamp_and_slice_witness :
  page (@clampEffect Sample.host Sample.props overshoot) = 2 /\
  @totalPages Sample.host Sample.props overshoot = 2 /\
  @pageRows Sample.host Sample.props
    (@clampEffect Sample.host Sample.props overshoot)
  = [Sample.card "400000" "Visa"; Sample.card "222100" "MASTERCARD"] /\
  @pageRows Sample.host Sample.props overshoot !! 0%nat = None.
Proof.
  destruct (@pagination_clamp_and_slice Sample.host Sample.props overshoot 10
              ltac:(reflexivity)) as (_ & _ & _ & Hslice & Hex).
  destruct Hex as (Hpage & Hpages & Hrows); try reflexivity.
  split; [exact Hpage|]. split; [exact Hpages|]. split.
  - rewrite Hrows. reflexivity.
  - rewrite Hslice by (vm_compute; discriminate). reflexivity.
Defined.

(** ** The sort stage *)

(** C5. With no direction the sort stage hands its input back, whatever
    the sort key; and on every pair of rows the comparator of the
    descending sort is the negation of the comparator of the ascending
    sort on the same key. *)
Theorem sortStage_none_and_descending `{Host}
    (cols : list ColumnConfig) (k : string) (rows : list row) (a b : row) :
  sortStage cols {| sort_key := k; dir := None |} rows = rows /\
  sortComparator cols {| sort_key := k; dir := Some desc |} a b
  = JS.neg (sortComparator cols {| sort_key := k; dir := Some asc |} a b).
Proof.
  split.
  - unfold sortStage, sortActive. cbn [dir]. now rewrite andb_false_r.
  - reflexivity.
Qed.

(** ** [compareValues] on numbers and currencies *)

Lemma stripNonNumeric_filter (s : string) :
  list_ascii_of_string (JS.stripNonNumeric s)
  = List.filter JS.isNumericChar (list_ascii_of_string s).
Proof.
  induction s as [|c s IH]; cbn; [reflexivity|].
  destruct (JS.isNumericChar c); cbn; now rewrite IH.
Qed.

Lemma isNumericChar_table (c : ascii) :
  JS.isNumericChar c
  = existsb (Ascii.eqb c) (list_ascii_of_string "0123456789.-").
Proof. destruct c as [[] [] [] [] [] [] [] []]; reflexivity. Qed.

Lemma isNumericChar_spec (c : ascii) :
  JS.isNumericChar c = true <-> In c (list_ascii_of_string "0123456789.-").
Proof.
  rewrite isNumericChar_table, existsb_exists. split.
  - intros [d [Hin Heq]]. apply Ascii.eqb_eq in Heq. now subst d.
  - intros Hin. exists c. split; [exact Hin | apply Ascii.eqb_refl].
Qed.

(** C6. For the format types number and currency, [compareValues] keeps of
    the string form of each value the digits, ['.'] and ['-'], in order,
    parses both with [parseFloat], and returns the difference of the two
    numbers when both are finite; otherwise it returns what
    [localeCompare] says of the two original string forms. *)
Theorem compareValues_numeric `{Host} (a b : value) (ty : FormatType) :
  ty = TNumber \/ ty = TCurrency ->
  let sa := JS.stripNonNumeric (String_ a) in
  let sb := JS.stripNonNumeric (String_ b) in
  let na := JS.parseFloat sa in
  let nb := JS.parseFloat sb in
  list_ascii_of_string sa
  = List.filter JS.isNumericChar (list_ascii_of_string (String_ a)) /\
  list_ascii_of_string sb
  = List.filter JS.isNumericChar (list_ascii_of_string (String_ b)) /\
  (forall c,
     JS.isNumericChar c = true <->
     In c (list_ascii_of_string "0123456789.-")) /\
  compareValues a b (Some ty)
  = if JS.isFinite na && JS.isFinite nb then JS.sub na nb
    else localeCompare (String_ a) (String_ b).
Proof.
  intros Hty sa sb na nb.
  split; [apply stripNonNumeric_filter|].
  split; [apply stripNonNumeric_filter|].
  split; [apply isNumericChar_spec|].
  assert (Hcmp : compareValues a b (Some ty)
                 = if negb (JS.isFinite na) || negb (JS.isFinite nb)
                   then localeCompare (String_ a) (String_ b)
                   else JS.sub na nb)
    by (destruct Hty as [-> | ->]; reflexivity).
  rewrite Hcmp.
  destruct (JS.isFinite na), (JS.isFinite nb); reflexivity.
Qed.

(** ["$1,200.50"] against ["300"] as currencies: 1200.5 - 300 = 900.5. *)
Lemma compareValues_numeric_witness :
  @compareValues Sample.host (VString "$1,200.50") (VString "300")
    (Some TCurrency)
  = S754_finite false 7920881766498304 (-43).
Proof.
  destruct (@compareValues_numeric Sample.host (VString "$1,200.50")
              (VString "300") TCurrency ltac:(now right))
    as (_ & _ & _ & Hcmp).
  rewrite Hcmp. reflexivity.
Defined.

(** ** [applyFilterCondition] *)

Lemma lt_NaN_l (x : JS.number) : JS.lt JS.NaN x = false.
Proof. reflexivity. Qed.

Lemma lt_NaN_r (x : JS.number) : JS.lt x JS.NaN = false.
Proof. now destruct x. Qed.

Lemma isNaN_spec (x : JS.number) : JS.isNaN x = true <-> x = JS.NaN.
Proof. destruct x; split; intros Hx; try discriminate Hx; reflexivity. Qed.

Lemma length_append (s t : string) :
  String.length (s ++ t)%string = (String.length s + String.length t)%nat.
Proof. induction s as [|c s IH]; cbn; [reflexivity | now rewrite <- IH]. Qed.

Lemma substring_0_length (t : string) :
  String.substring 0 (String.length t) t = t.
Proof. induction t as [|c t IH]; cbn; [reflexivity | now rewrite IH]. Qed.

Lemma substring_skip (pre t : string) :
  String.substring (String.length pre) (String.length t) (pre ++ t)%string = t.
Proof.
  induction pre as [|c pre IH]; [apply substring_0_length | exact IH].
Qed.

Lemma substring_split (s : string) : forall k m : nat,
  (k + m)%nat = String.length s ->
  s = (String.substring 0 k s ++ String.substring k m s)%string.
Proof.
  induction s as [|c s IH]; intros k m Hlen.
  - destruct k, m; try discriminate. reflexivity.
  - destruct k as [|k].
    + cbn [Nat.add] in Hlen. subst m.
      change (String.substring 0 0 (String c s)) with "".
      now rewrite substring_0_length.
    + cbn in Hlen. injection Hlen as Hlen.
      cbn [String.substring]. rewrite append_cons. f_equal.
      now apply IH.
Qed.

Lemma endsWith_spec (s t : string) :
  JS.endsWith s t = true <-> exists pre, s = (pre ++ t)%string.
Proof.
  unfold JS.endsWith. rewrite andb_true_iff, Nat.leb_le, String.eqb_eq.
  split.
  - intros [Hle Hsub].
    exists (String.substring 0 (String.length s - String.length t) s).
    pose proof (substring_split s (String.length s - String.length t)
                  (String.length t) ltac:(lia)) as Hs.
    now rewrite Hsub in Hs.
  - intros [pre ->]. rewrite length_append. split; [lia|].
    replace (String.length pre + String.length t - String.length t)%nat
      with (String.length pre) by lia.
    apply substring_skip.
Qed.

(** C7, as the code has it. [applyFilterCondition] is a total function to
    the booleans: there is no input on which it fails. Every operator
    works on the lowercased string forms of the two sides: [contains],
    [equals], [starts] and [ends] compare them as strings, [gt] and [lt]
    parse them with [parseFloat] and compare the numbers, and when either
    side does not parse to a number the condition is false. *)
Theorem applyFilterCondition_lowercased
    (value : string) (cond : FilterCondition) :
  let left := JS.toLowerCase value in
  let right := JS.toLowerCase (cond_value cond) in
  (applyFilterCondition value cond = true <->
   match op cond with
   | contains => exists pre post, left = (pre ++ right ++ post)%string
   | equals => left = right
   | starts => exists post, left = (right ++ post)%string
   | ends => exists pre, left = (pre ++ right)%string
   | gt => JS.gt (JS.parseFloat left) (JS.parseFloat right) = true
   | lt => JS.lt (JS.parseFloat left) (JS.parseFloat right) = true
   end)
  /\ (op cond = gt \/ op cond = lt ->
      JS.isNaN (JS.parseFloat left) = true \/
      JS.isNaN (JS.parseFloat right) = true ->
      applyFilterCondition value cond = false).
Proof.
  cbn zeta. unfold applyFilterCondition. cbn [orEmpty String_]. split.
  - destruct (op cond).
    + apply includes_spec.
    + apply String.eqb_eq.
    + apply prefix_spec.
    + apply endsWith_spec.
    + reflexivity.
    + reflexivity.
  - intros Hop Hnan.
    destruct Hop as [-> | ->]; destruct Hnan as [Hn | Hn];
      apply isNaN_spec in Hn; rewrite Hn; unfold JS.gt;
      first [apply lt_NaN_l | apply lt_NaN_r].
Qed.

Lemma applyFilterCondition_lowercased_witness :
  applyFilterCondition "abc" {| op := gt; cond_value := "5" |} = false.
Proof.
  apply (proj2 (applyFilterCondition_lowercased "abc"
                  {| op := gt; cond_value := "5" |})).
  - now left.
  - left. reflexivity.
Defined.

(** C7, as the claim has it, fails on ["Infinity"]: parsed as it stands it
    is the number Infinity, which is greater than 5, and the condition is
    false, because the lowercased ["infinity"] is not a number. *)
Lemma applyFilterCondition_lowercases_before_parsing :
  JS.gt (JS.parseFloat "Infinity") (JS.parseFloat "5") = true /\
  applyFilterCondition "Infinity" {| op := gt; cond_value := "5" |} = false.
Proof. split; reflexivity. Qed.

(** ** Row selection *)

Lemma has_spec (sel : list Z) (i : Z) : has sel i = true <-> In i sel.
Proof.
  unfold has. rewrite existsb_exists. split.
  - intros [j [Hin Heq]]. apply Z.eqb_eq in Heq. now subst j.
  - intros Hin. exists i. split; [exact Hin | apply Z.eqb_refl].
Qed.

Lemma add_spec (sel : list Z) (i j : Z) :
  In j (add sel i) <-> In j sel \/ j = i.
Proof.
  unfold add. destruct (has sel i) eqn:Hhas.
  - apply has_spec in Hhas. split; [now left|].
    intros [Hin | ->]; assumption.
  - rewrite in_app_iff. cbn. intuition congruence.
Qed.

Lemma add_extends (sel : list Z) (i : Z) :
  exists added, add sel i = (sel ++ added)%list.
Proof.
  unfold add. destruct (has sel i).
  - exists []. now rewrite app_nil_r.
  - now exists [i].
Qed.

Lemma fold_add_spec (l : list Z) : forall (sel : list Z) (j : Z),
  In j (fold_left add l sel) <-> In j sel \/ In j l.
Proof.
  induction l as [|i l IH]; intros sel j; cbn.
  - tauto.
  - rewrite IH, add_spec. intuition congruence.
Qed.

Lemma fold_add_extends (l : list Z) : forall sel : list Z,
  exists added, fold_left add l sel = (sel ++ added)%list.
Proof.
  induction l as [|i l IH]; intros sel; cbn.
  - exists []. now rewrite app_nil_r.
  - destruct (add_extends sel i) as [a1 Ha1].
    destruct (IH (add sel i)) as [a2 Ha2].
    exists (a1 ++ a2)%list. now rewrite Ha2, Ha1, <- app_assoc.
Qed.

Lemma In_seqZ (a len j : Z) : In j (seqZ a len) <-> a <= j < a + len.
Proof. rewrite <- list_elem_of_In. apply elem_of_seqZ. Qed.

(** C8, as the code has it. The anchor of a click with the shift key is
    the member of the set that was inserted last. On a set [sel] whose
    last inserted member is [L], such a click on the global index [i]
    gives the union of [sel] with the closed interval between [L] and
    [i]; the members of [sel] stay, in their order. Selecting 2 and then
    6 with shift gives 2, 3, 4, 5, 6, and a plain click on 4 after that
    gives 4 alone. *)
Theorem shift_click_extends_from_last_inserted
    (sel : list Z) (L i : Z) (ev : MouseEvent) :
  shiftKey ev = true ->
  last sel = Some L ->
  let sel' := selectionUpdater i (Some ev) sel in
  (forall j, In j sel' <-> In j sel \/ (Z.min L i <= j <= Z.max L i)) /\
  (exists added, sel' = (sel ++ added)%list) /\
  selectionUpdater 6 (Some ev) (selectionUpdater 2 None []) = [2; 3; 4; 5; 6] /\
  selectionUpdater 4 None [2; 3; 4; 5; 6] = [4].
Proof.
  intros Hshift Hlast sel'.
  assert (Hsize : (0 <? size sel) = true).
  { apply Z.ltb_lt. unfold size. destruct sel; [discriminate | cbn; lia]. }
  assert (Hsel' : sel' = fold_left add
                           (seqZ (Z.min L i) (Z.max L i - Z.min L i + 1)) sel).
  { unfold sel', selectionUpdater. cbn [shiftPressed].
    now rewrite Hshift, Hsize, Hlast. }
  split; [|split; [|split]].
  - intros j. rewrite Hsel', fold_add_spec, In_seqZ.
    split; (intros [Hin | Hrange]; [now left | right; lia]).
  - rewrite Hsel'. apply fold_add_extends.
  - unfold selectionUpdater at 1. cbn [shiftPressed]. rewrite Hshift.
    reflexivity.
  - reflexivity.
Qed.

Lemma shift_click_extends_from_last_inserted_witness :
  In 4 (selectionUpdater 3 (Some Sample.shift) [8; 6]) /\
  selectionUpdater 3 (Some Sample.shift) [8; 6] = [8; 6; 3; 4; 5].
Proof.
  split; [|reflexivity].
  apply (proj1 (shift_click_extends_from_last_inserted [8; 6] 6 3
                  Sample.shift eq_refl eq_refl)).
  right. lia.
Defined.

(** C8, as the claim has it, fails when the row touched last is no longer
    selected: after rows 3 and 10 were selected and 10 deselected, each
    with the multi-select modifier, the selection is 3 and the last row
    touched is 10; a shift click on 12 then selects 3 to 12, and row 5 is
    neither in the old selection nor between 10 and 12. *)
Lemma shift_click_anchor_is_not_last_touched :
  runClicks deselectTrace [] = [3] /\
  lastTouched deselectTrace = Some 10 /\
  In 5 (selectionUpdater 12 (Some Sample.shift) (runClicks deselectTrace [])) /\
  ~ (In 5 (runClicks deselectTrace []) \/ (Z.min 10 12 <= 5 <= Z.max 10 12)).
Proof.
  assert (H3 : runClicks deselectTrace [] = [3] /\ True) by now split.
  split; [reflexivity|]. split; [reflexivity|]. split.
  - vm_compute. tauto.
  - rewrite (proj1 H3). intros [[H5 | []] | Hrange]; lia.
Qed.

(** C10. On an empty selection a click with the shift key does what a
    plain click does: the selection becomes the clicked global index
    alone, whatever the other modifier keys. *)
Theorem shift_click_on_empty_selection
    (s : State) (indexInPage : Z) (ev : MouseEvent) :
  shiftKey ev = true ->
  selectedRows s = [] ->
  selectedRows (toggleRowSelection indexInPage (Some ev) s)
  = [(page s - 1) * pageSize s + indexInPage] /\
  toggleRowSelection indexInPage (Some ev) s
  = toggleRowSelection indexInPage None s.
Proof.
  intros Hshift Hempty.
  unfold toggleRowSelection, selectionUpdater.
  cbn [selectedRows set_selectedRows shiftPressed ctrlOrMetaPressed].
  rewrite Hshift, Hempty. cbn.
  destruct (ctrlKey ev || metaKey ev); split; reflexivity.
Qed.

Lemma shift_click_on_empty_selection_witness :
  selectedRows (toggleRowSelection 3 (Some Sample.shift) overshoot) = [48].
Proof.
  exact (proj1 (shift_click_on_empty_selection overshoot 3 Sample.shift
                  eq_refl eq_refl)).
Defined.

(** ** The caller's array *)

(** Addresses are natural numbers and a store is a list: the list lemmas
    apply once the two names are unfolded. *)
Ltac unstore := unfold ref, store in *.

Lemma deref_alloc (xs : list row) (σ : store) :
  deref (snd (alloc xs σ)) (fst (alloc xs σ)) = xs.
Proof.
  unfold deref, alloc. unstore. cbn [fst snd].
  now rewrite (list_lookup_middle σ [] xs (length σ) eq_refl).
Qed.

Lemma alloc_extends (σ0 σ : store) (xs : list row) :
  (length σ0 <= length σ)%nat ->
  (forall b : ref, (b < length σ0)%nat -> σ !! b = σ0 !! b) ->
  extends σ0 (alloc xs σ) xs.
Proof.
  intros Hlen Hold. unfold extends. split; [|split].
  - cbn [alloc fst snd]. rewrite length_app. cbn. lia.
  - intros b Hb. cbn [alloc snd]. unstore.
    rewrite lookup_app_l by lia. now apply Hold.
  - apply deref_alloc.
Qed.

Lemma slice_st_extends (σ0 : store) (a : ref) :
  extends σ0 (slice_st a σ0) (sliceAll (deref σ0 a)).
Proof. apply alloc_extends; [lia | reflexivity]. Qed.

Lemma filter_st_extends (σ0 : store) (st : ref * store) (xs : list row)
    (f : row -> bool) :
  extends σ0 st xs ->
  extends σ0 (filter_st f (fst st) (snd st)) (List.filter f xs).
Proof.
  intros (Hlen & Hold & Hxs). unfold filter_st. rewrite Hxs.
  apply alloc_extends; [lia | exact Hold].
Qed.

Lemma filterEntry_st_extends (σ0 : store) (st : ref * store) (xs : list row)
    (entry : string * list FilterCondition) :
  extends σ0 st xs ->
  extends σ0 (filterEntry_st st entry) (filterEntry xs entry).
Proof.
  intros Hext. destruct st as [a σ], entry as [colKey [|c cs]]; cbn.
  - exact Hext.
  - apply (filter_st_extends σ0 (a, σ)). exact Hext.
Qed.

Lemma fold_filterEntry_st_extends (σ0 : store)
    (filters : list (string * list FilterCondition)) :
  forall (st : ref * store) (xs : list row),
    extends σ0 st xs ->
    extends σ0 (fold_left filterEntry_st filters st)
      (fold_left filterEntry filters xs).
Proof.
  induction filters as [|e filters IH]; intros st xs Hext; cbn.
  - exact Hext.
  - apply IH. now apply filterEntry_st_extends.
Qed.

Lemma sort_st_extends (σ0 : store) (st : ref * store) (xs : list row)
    (cmp : row -> row -> JS.number) :
  extends σ0 st xs ->
  extends σ0 (fst st, sort_st cmp (fst st) (snd st)) (sort cmp xs).
Proof.
  intros (Hlen & Hold & Hxs). unfold extends, sort_st. cbn [fst snd].
  unstore. rewrite length_insert. split; [exact Hlen|]. split.
  - intros b Hb. rewrite list_lookup_insert_ne by lia. now apply Hold.
  - unfold deref at 1. unstore. rewrite list_lookup_insert_eq by lia. cbn.
    now rewrite Hxs.
Qed.

Section CallerArray.
Context `{Host}.

Lemma filteredRows_st_extends (cfg : TableConfig) (s : State)
    (dataRef : ref) (σ : store) :
  extends σ (filteredRows_st cfg s dataRef σ)
    (filteredRows {| data := deref σ dataRef; config := cfg |} s).
Proof.
  unfold filteredRows_st, filteredRows, searchStage, filterStage, sortStage.
  cbn [data config].
  pose proof (slice_st_extends σ dataRef) as H0.
  destruct (slice_st dataRef σ) as [r0 σ0].
  set (xs0 := sliceAll (deref σ dataRef)) in *.
  assert (H1 : extends σ
                 (if truthy (debouncedSearch s)
                  then filter_st
                         (searchMatches (visibleColumns cfg s)
                            (debouncedSearch s)) r0 σ0
                  else (r0, σ0))
                 (if truthy (debouncedSearch s)
                  then List.filter
                         (searchMatches (visibleColumns cfg s)
                            (debouncedSearch s)) xs0
                  else xs0)).
  { destruct (truthy (debouncedSearch s)); [|exact H0].
    apply (filter_st_extends σ (r0, σ0)). exact H0. }
  destruct (if truthy (debouncedSearch s) then _ else (r0, σ0)) as [r1 σ1].
  set (xs1 := if truthy (debouncedSearch s) then _ else xs0) in *.
  pose proof (fold_filterEntry_st_extends σ (columnFilters s) _ _ H1) as H2.
  destruct (fold_left filterEntry_st (columnFilters s) (r1, σ1)) as [r2 σ2].
  destruct (sortActive (sortState s)); [|exact H2].
  apply (sort_st_extends σ (r2, σ2)). exact H2.
Qed.

(** C9. [filteredRows] does not write to the array it is given. Whatever
    the store, when [data] is an array of it: after [filteredRows] every
    array that was in the store, [data] among them, has the elements it
    had, in their order; the array that is returned is a new one, the one
    the in-place sort worked on; and it holds the filtered rows. *)
Theorem filteredRows_leaves_data_alone (cfg : TableConfig) (s : State)
    (dataRef : ref) (σ : store) :
  (dataRef < length σ)%nat ->
  let result := filteredRows_st cfg s dataRef σ in
  snd result !! dataRef = σ !! dataRef /\
  (forall b : ref, (b < length σ)%nat -> snd result !! b = σ !! b) /\
  fst result <> dataRef /\
  deref (snd result) (fst result)
  = filteredRows {| data := deref σ dataRef; config := cfg |} s.
Proof.
  intros Hdata result.
  destruct (filteredRows_st_extends cfg s dataRef σ) as (Hlen & Hold & Hxs).
  fold result in Hlen, Hold, Hxs.
  split; [now apply Hold|]. split; [exact Hold|]. split; [lia | exact Hxs].
Qed.

End CallerArray.

Lemma filteredRows_leaves_data_alone_witness :
  snd (@filteredRows_st Sample.host Sample.cfg sortedByBin 0%nat callerStore)
    !! 0%nat
  = Some Sample.cards.
Proof.
  exact (proj1 (@filteredRows_leaves_data_alone Sample.host Sample.cfg
                  sortedByBin 0%nat callerStore ltac:(cbn; lia))).
Defined.

(** The sort of the store does write: applied to the caller's array
    itself it would reorder it, and [filteredRows] on the sample returns
    another order than the caller's. *)
Lemma sort_st_writes_in_place :
  sort_st (@sortComparator Sample.host (columns Sample.cfg) byBin) 0%nat
    callerStore !! 0%nat
  <> Some Sample.cards.
Proof. vm_compute. discriminate. Qed.

(** ** The pipeline on the sample *)

(** Brand contains "a", sorted by [bin] ascending, page 1 of size 5. *)
Example view_sortedByBin :
  @view Sample.host Sample.props sortedByBin
  = {| view_rows :=
         [Sample.card "222100" "MASTERCARD"; Sample.card "340000" "Amex";
          Sample.card "400000" "Visa"; Sample.card "411111" "VISA";
          Sample.card "510510" "Mastercard"];
       view_totalRows := 5;
       view_totalPages := 1 |}.
Proof. vm_compute. reflexivity. Qed.

(** The same, descending: on the sample, where no two [bin] are equal,
    the reverse order. *)
Example filteredRows_descending :
  @sortStage Sample.host (columns Sample.cfg) byBinDescending Sample.cards
  = rev (@sortStage Sample.host (columns Sample.cfg) byBin Sample.cards).
Proof. vm_compute. reflexivity. Qed.

(** Two conditions on one column and one on another: (brand contains
    "visa" or brand contains "amex") and bin starts with "4". *)
Example filterStage_two_columns :
  filterStage
    [("brand", [{| op := contains; cond_value := "visa" |};
                {| op := contains; cond_value := "Amex" |}]);
     ("bin", [{| op := starts; cond_value := "4" |}])]
    Sample.cards
  = [Sample.card "411111" "VISA"; Sample.card "400000" "Visa"].
Proof. vm_compute. reflexivity. Qed.

(** A relational condition parses numbers: bin less than 400000. *)
Example filterStage_less_than :
  filterStage [("bin", [{| op := lt; cond_value := "400000" |}])] Sample.cards
  = [Sample.card "340000" "Amex"; Sample.card "352800" "JCB";
     Sample.card "222100" "MASTERCARD"].
Proof. vm_compute. reflexivity. Qed.

(* ===================================================================== *)
(** * Further properties of the component *)

(** ** The rows of the view come from the collection *)

Lemma filter_sublist {A : Type} (f : A -> bool) (l : list A) :
  List.filter f l `sublist_of` l.
Proof.
  induction l as [|x l IH]; cbn; [constructor|].
  destruct (f x); now constructor.
Qed.

Lemma searchStage_sublist (cols : list ColumnConfig) (term : string)
    (rows : list row) :
  searchStage cols term rows `sublist_of` rows.
Proof.
  unfold searchStage. destruct (truthy term); [apply filter_sublist | done].
Qed.

Lemma filterStage_sublist (filters : list (string * list FilterCondition))
    (rows : list row) :
  filterStage filters rows `sublist_of` rows.
Proof. rewrite filterStage_filter. apply filter_sublist. Qed.

Lemma insertSorted_perm {A : Type} (cmp : A -> A -> JS.number) (x : A)
    (l : list A) :
  insertSorted cmp x l ≡ₚ x :: l.
Proof.
  induction l as [|y l IH]; cbn; [done|].
  destruct (JS.gt (cmp x y) JS.zero); [|done].
  rewrite IH. apply Permutation_swap.
Qed.

Lemma sort_perm {A : Type} (cmp : A -> A -> JS.number) (l : list A) :
  sort cmp l ≡ₚ l.
Proof.
  induction l as [|x l IH]; cbn; [done|].
  fold (sort cmp l). now rewrite insertSorted_perm, IH.
Qed.

Section FromData.
Context `{Host}.

(** X1. Sorting loses no row and repeats none: whatever the comparator
    says, the sort stage returns a rearrangement of its input. *)
Theorem sortStage_permutation (cols : list ColumnConfig) (st : SortState)
    (rows : list row) :
  sortStage cols st rows ≡ₚ rows.
Proof.
  unfold sortStage. destruct (sortActive st); [apply sort_perm | done].
Qed.

(** X2. The filtered rows are rows of the collection, each at most as
    often as the collection has it: the pipeline invents no row, and the
    number of filtered rows is at most the size of the collection. *)
Theorem filteredRows_from_data (p : Props) (s : State) :
  filteredRows p s ⊆+ data p /\
  (forall r, In r (filteredRows p s) -> In r (data p)) /\
  totalRows p s <= Z.of_nat (length (data p)).
Proof.
  assert (Hsub : filteredRows p s ⊆+ data p).
  { unfold filteredRows.
    assert (Hperm : forall rows,
              sortStage (columns (config p)) (sortState s) rows ≡ₚ rows).
    { intros rows. unfold sortStage.
      destruct (sortActive (sortState s)); [apply sort_perm | done]. }
    rewrite Hperm, sliceAll_id. apply sublist_submseteq.
    etransitivity; [apply filterStage_sublist | apply searchStage_sublist]. }
  split; [exact Hsub|]. split.
  - intros r Hr. apply list_elem_of_In. apply list_elem_of_In in Hr.
    now apply (elem_of_submseteq _ _ _ Hr Hsub).
  - unfold totalRows. apply Nat2Z.inj_le. now apply submseteq_length.
Qed.

(** X3. While no sort is active the filtered rows keep the order of the
    collection: they are the collection with some rows left out. *)
Theorem filteredRows_keeps_order (p : Props) (s : State) :
  sortActive (sortState s) = false ->
  filteredRows p s `sublist_of` data p.
Proof.
  intros Hsort. unfold filteredRows, sortStage. rewrite Hsort, sliceAll_id.
  etransitivity; [apply filterStage_sublist | apply searchStage_sublist].
Qed.

End FromData.

Lemma filteredRows_keeps_order_witness :
  @filteredRows Sample.host Sample.props visaOnly `sublist_of` Sample.cards.
Proof.
  apply (@filteredRows_keeps_order Sample.host Sample.props visaOnly).
  reflexivity.
Defined.

(** ** The order of the filter entries *)

Lemma forallb_Permutation {A : Type} (f : A -> bool) (l l' : list A) :
  l ≡ₚ l' -> forallb f l = forallb f l'.
Proof.
  induction 1 as [|x l l' _ IH|x y l|l l' l'' _ IH1 _ IH2]; cbn.
  - reflexivity.
  - now rewrite IH.
  - destruct (f x), (f y); reflexivity.
  - now rewrite IH1.
Qed.

(** X4. The filter stage does not depend on the order in which the
    columns entered the filter map: two maps with the same entries in
    another order keep the same rows. *)
Theorem filterStage_order_irrelevant
    (filters filters' : list (string * list FilterCondition))
    (rows : list row) :
  filters ≡ₚ filters' ->
  filterStage filters rows = filterStage filters' rows.
Proof.
  intros Hperm. rewrite !filterStage_filter.
  apply filter_ext. intros r. now apply forallb_Permutation.
Qed.

Lemma filterStage_order_irrelevant_witness :
  filterStage
    [("bin", [{| op := starts; cond_value := "4" |}]);
     ("brand", [{| op := contains; cond_value := "visa" |}])] Sample.cards
  = filterStage
      [("brand", [{| op := contains; cond_value := "visa" |}]);
       ("bin", [{| op := starts; cond_value := "4" |}])] Sample.cards.
Proof.
  apply filterStage_order_irrelevant. apply Permutation_swap.
Defined.

(** ** The pages *)

Lemma pageOf_take_drop {A : Type} (rows : list A) (pg size : Z) :
  1 <= pg -> 0 < size ->
  pageOf rows pg size
  = take (Z.to_nat size) (drop (Z.to_nat ((pg - 1) * size)) rows).
Proof.
  intros Hpg Hsize. apply list_eq. intros k. unfold pageOf.
  rewrite slice_lookup by nia. rewrite lookup_take, lookup_drop.
  case_bool_decide; case_decide; (reflexivity || lia).
Qed.

Lemma take_plus {A : Type} (l : list A) (n m : nat) :
  take (n + m) l = (take n l ++ take m (drop n l))%list.
Proof.
  revert l. induction n as [|n IH]; intros l; [reflexivity|].
  destruct l as [|x l]; cbn; [now destruct m | now rewrite IH].
Qed.

Lemma concat_chunks {A : Type} (l : list A) (sz k : nat) :
  concat (map (fun j : nat => take sz (drop (j * sz) l)) (seq 0 k))
  = take (k * sz) l.
Proof.
  induction k as [|k IH]; [reflexivity|].
  rewrite seq_S, map_app, concat_app, IH. cbn [map concat Nat.add].
  rewrite app_nil_r. replace (S k * sz)%nat with (k * sz + sz)%nat by lia.
  symmetry. apply take_plus.
Qed.

(** X5. With a positive page size the pages 1 to [totalPages] cut the
    rows into consecutive pieces: put one after the other they give the
    rows back, each row once; no page is longer than the page size, and
    every page before the last one is full. *)
Theorem pages_partition {A : Type} (rows : list A) (size : Z) :
  0 < size ->
  let pages := pagesOf (Z.of_nat (length rows)) size in
  concat (map (fun pg => pageOf rows pg size) (seqZ 1 pages)) = rows /\
  (forall pg, 1 <= pg ->
     Z.of_nat (length (pageOf rows pg size)) <= size /\
     (pg < pages -> Z.of_nat (length (pageOf rows pg size)) = size)).
Proof.
  intros Hsize pages.
  pose proof (ceilDiv_spec (Z.of_nat (length rows)) size Hsize) as Hceil.
  assert (Hpages : pages = Z.max 1 (ceilDiv (Z.of_nat (length rows)) size))
    by reflexivity.
  split.
  - assert (Hmap : forall l : list nat,
              map (fun pg => pageOf rows pg size)
                ((fun i : nat => Z.of_nat i + 1) <$> l)
              = map (fun j : nat =>
                       take (Z.to_nat size) (drop (j * Z.to_nat size) rows))
                  l).
    { induction l as [|j l IH]; cbn; [reflexivity|].
      rewrite IH. f_equal. rewrite pageOf_take_drop by lia.
      do 2 f_equal. nia. }
    unfold seqZ. rewrite Hmap, concat_chunks. apply take_ge. nia.
  - intros pg Hpg. rewrite pageOf_take_drop by lia.
    rewrite length_take, length_drop. split; [lia|].
    intros Hlast. nia.
Qed.

Lemma pages_partition_witness :
  concat (map (fun pg => pageOf Sample.cards pg 5) (seqZ 1 2)) = Sample.cards.
Proof.
  exact (proj1 (pages_partition Sample.cards 5 ltac:(reflexivity))).
Defined.

Section PageShown.
Context `{Host}.

Lemma totalPages_clampEffect (p : Props) (s : State) :
  totalPages p (clampEffect p s) = totalPages p s.
Proof.
  unfold clampEffect. now destruct (totalPages p s <? page s).
Qed.

Lemma filteredRows_clampEffect (p : Props) (s : State) :
  filteredRows p (clampEffect p s) = filteredRows p s.
Proof.
  unfold clampEffect. now destruct (totalPages p s <? page s).
Qed.

Lemma pageSize_clampEffect (p : Props) (s : State) :
  pageSize (clampEffect p s) = pageSize s.
Proof.
  unfold clampEffect. now destruct (totalPages p s <? page s).
Qed.

(** X6. Once the effect has run the table does not show an empty page
    while there are rows: with a positive page size and a page from 1 up,
    if some row passes the filters then the page shown has a row. *)
Theorem page_shown_not_empty (p : Props) (s : State) :
  0 < pageSize s ->
  1 <= page s ->
  filteredRows p s <> [] ->
  pageRows p (clampEffect p s) <> [].
Proof.
  intros Hsize Hpage Hrows.
  pose proof (clampEffect_in_range p s Hpage) as Hrange.
  rewrite totalPages_clampEffect in Hrange.
  pose proof (ceilDiv_spec (totalRows p s) (pageSize s) Hsize) as Hceil.
  assert (Hn : 0 < totalRows p s).
  { unfold totalRows. destruct (filteredRows p s); [done | cbn; lia]. }
  assert (Hpages : totalPages p s
                   = Z.max 1 (ceilDiv (totalRows p s) (pageSize s)))
    by reflexivity.
  unfold pageRows, pageOf.
  rewrite filteredRows_clampEffect, pageSize_clampEffect.
  intros Hnil.
  set (pg := page (clampEffect p s)) in *.
  assert (Hstart : 0 <= (pg - 1) * pageSize s) by nia.
  pose proof (slice_lookup (filteredRows p s) ((pg - 1) * pageSize s)
                (pageSize s) 0 Hstart ltac:(lia)) as Hk.
  rewrite Hnil in Hk. cbn [lookup list_lookup] in Hk.
  rewrite bool_decide_eq_true_2 in Hk by lia.
  symmetry in Hk. apply lookup_ge_None_1 in Hk.
  unfold totalRows in *. nia.
Qed.

End PageShown.

Lemma page_shown_not_empty_witness :
  @pageRows Sample.host Sample.props
    (@clampEffect Sample.host Sample.props overshoot) <> [].
Proof.
  apply (@page_shown_not_empty Sample.host Sample.props overshoot).
  - reflexivity.
  - vm_compute. discriminate.
  - vm_compute. discriminate.
Defined.

Section PageInvariant.
Context `{Host}.

Lemma applyPageEvent_in_range (p : Props) (e : PageEvent) (s : State) :
  1 <= page s <= totalPages p s ->
  (forall text, e = TypePage text -> is_Some (pageInput text)) ->
  exists s',
    applyPageEvent p s e = Some s' /\
    1 <= page s' <= totalPages p s'.
Proof.
  intros Hpage Hparse.
  destruct e as [| |text| | |]; cbn [applyPageEvent].
  - exists (firstPage s). split; [reflexivity|].
    exact (proj1 (page_handlers_in_range p s 0 Hpage)).
  - exists (prevPage s). split; [reflexivity|].
    exact (proj1 (proj2 (page_handlers_in_range p s 0 Hpage))).
  - destruct (Hparse text eq_refl) as [requested Hreq]. rewrite Hreq.
    exists (gotoPage p requested s). split; [reflexivity|].
    exact (proj1 (proj2 (proj2 (page_handlers_in_range p s requested Hpage)))).
  - exists (nextPage p s). split; [reflexivity|].
    exact (proj1 (proj2 (proj2 (proj2
             (page_handlers_in_range p s 0 Hpage))))).
  - exists (lastPage p s). split; [reflexivity|].
    exact (proj2 (proj2 (proj2 (proj2
             (page_handlers_in_range p s 0 Hpage))))).
  - exists (clampEffect p s). split; [reflexivity|].
    apply clampEffect_in_range. lia.
Qed.

(** X7. The page stays between 1 and the number of pages: from a state
    where it is, every run of the handlers of the pagination bar (first,
    previous, a text typed into the page box, next, last) and of the
    effect in which every typed text parses to an integer ends in a
    state where it still is. (A typed text without a leading digit, such
    as [.5], makes the page NaN.) *)
Theorem page_stays_in_range (p : Props) (events : list PageEvent)
    (s : State) :
  1 <= page s <= totalPages p s ->
  typedPagesParse events ->
  exists s',
    runPageEvents p events s = Some s' /\
    1 <= page s' <= totalPages p s'.
Proof.
  revert s.
  induction events as [|e events IH]; intros s Hpage Hparse.
  - exists s. split; [reflexivity | exact Hpage].
  - destruct (applyPageEvent_in_range p e s Hpage) as (s1 & Hs1 & Hpage1).
    { intros text ->. apply Hparse. now left. }
    cbn [runPageEvents]. rewrite Hs1.
    apply IH; [exact Hpage1|].
    intros text Hin. apply Hparse. now right.
Qed.

End PageInvariant.

Lemma page_stays_in_range_witness :
  match @runPageEvents Sample.host Sample.props
          [TypePage "99"; NextPage; PrevPage; TypePage "-3"; TypePage "";
           ClampEffect] Sample.initial with
  | Some s' => 1 <= page s' <= @totalPages Sample.host Sample.props s'
  | None => False
  end.
Proof.
  destruct (@page_stays_in_range Sample.host Sample.props
              [TypePage "99"; NextPage; PrevPage; TypePage "-3"; TypePage "";
               ClampEffect] Sample.initial) as (s' & Hrun & Hrange).
  - vm_compute. split; discriminate.
  - intros text Hin. cbn in Hin.
    repeat (destruct Hin as [Hin | Hin]; [try discriminate Hin|]);
      try (injection Hin as <-; vm_compute; eauto).
    destruct Hin.
  - rewrite Hrun. exact Hrange.
Defined.

(** What the page box makes of some texts: no leading digit, no
    number. *)
Example pageInput_texts :
  pageInput ".5" = None /\ pageInput "" = Some 1 /\
  pageInput "12abc" = Some 12 /\ pageInput " -3" = Some (-3) /\
  pageInput "1e3" = Some 1.
Proof. repeat split. Qed.

(** ** Editing the filter map *)

Lemma lookupEntry_setEntry_eq (k : string) (v : list FilterCondition)
    (fs : list (string * list FilterCondition)) :
  lookupEntry k (setEntry k v fs) = Some v.
Proof.
  induction fs as [|[k' w] fs IH]; cbn.
  - now rewrite String.eqb_refl.
  - destruct (String.eqb k' k) eqn:Hk; cbn.
    + now rewrite String.eqb_refl.
    + now rewrite Hk.
Qed.

Lemma lookupEntry_setEntry_ne (k k' : string) (v : list FilterCondition)
    (fs : list (string * list FilterCondition)) :
  k' <> k -> lookupEntry k' (setEntry k v fs) = lookupEntry k' fs.
Proof.
  intros Hne. induction fs as [|[k0 w] fs IH]; cbn.
  - destruct (String.eqb_spec k k'); [congruence | reflexivity].
  - destruct (String.eqb_spec k0 k) as [-> | Hk0]; cbn.
    + destruct (String.eqb_spec k k'); [congruence | reflexivity].
    + now rewrite IH.
Qed.

Lemma setEntry_setEntry (k : string) (v w : list FilterCondition)
    (fs : list (string * list FilterCondition)) :
  setEntry k v (setEntry k w fs) = setEntry k v fs.
Proof.
  induction fs as [|[k' u] fs IH]; cbn.
  - now rewrite String.eqb_refl.
  - destruct (String.eqb k' k) eqn:Hk; cbn.
    + now rewrite String.eqb_refl.
    + now rewrite Hk, IH.
Qed.

Lemma splice1_snoc {A : Type} (l : list A) (x : A) :
  splice1 (length l) (l ++ [x]) = l.
Proof.
  unfold splice1. rewrite take_app_length.
  rewrite drop_ge by (rewrite length_app; cbn; lia). apply app_nil_r.
Qed.

Lemma includes_empty (s : string) : JS.includes s EmptyString = true.
Proof. destruct s; reflexivity. Qed.

Lemma blankCondition_matches (v : string) :
  applyFilterCondition v blankCondition = true.
Proof. unfold applyFilterCondition. cbn. apply includes_empty. Qed.

Lemma entryPasses_with_blank (k : string) (conds : list FilterCondition)
    (r : row) :
  entryPasses (k, (conds ++ [blankCondition])%list) r = true.
Proof.
  apply entryPasses_spec. intros _. exists blankCondition. split.
  - apply in_app_iff. right. now left.
  - apply blankCondition_matches.
Qed.

Lemma withoutColumn_absent (k : string)
    (fs : list (string * list FilterCondition)) :
  ~ In k (map fst fs) -> withoutColumn k fs = fs.
Proof.
  intros Hk. unfold withoutColumn. apply forallb_filter_id.
  apply forallb_forall. intros [k' w] Hin. cbn.
  destruct (String.eqb_spec k' k) as [-> | Hne]; [|reflexivity].
  destruct Hk. apply in_map_iff. now exists (k, w).
Qed.

Lemma forallb_setEntry_passing (k : string) (v : list FilterCondition)
    (r : row) (fs : list (string * list FilterCondition)) :
  NoDup (map fst fs) ->
  entryPasses (k, v) r = true ->
  forallb (fun e => entryPasses e r) (setEntry k v fs)
  = forallb (fun e => entryPasses e r) (withoutColumn k fs).
Proof.
  intros Hnd Hpass. induction fs as [|[k' w] fs IH]; cbn.
  - now rewrite Hpass.
  - apply NoDup_cons in Hnd as [Hk' Hnd]. cbn [fst] in Hk'.
    destruct (String.eqb_spec k' k) as [-> | Hne]; cbn.
    + rewrite Hpass. fold (withoutColumn k fs).
      rewrite withoutColumn_absent; [reflexivity|].
      intros Hin. apply Hk'. now apply list_elem_of_In.
    + f_equal. now apply IH.
Qed.

Lemma forallb_setEntry_same (k : string) (r : row)
    (fs : list (string * list FilterCondition)) :
  forallb (fun e => entryPasses e r)
    (setEntry k (default [] (lookupEntry k fs)) fs)
  = forallb (fun e => entryPasses e r) fs.
Proof.
  induction fs as [|[k' w] fs IH]; cbn; [reflexivity|].
  destruct (String.eqb_spec k' k) as [-> | Hne]; cbn; [reflexivity|].
  now rewrite IH.
Qed.

(** X8. A new condition switches the filter of its column off. The
    condition that [addFilterCondition] appends is [contains] with the
    empty value, which every value matches; because the conditions of a
    column are alternatives, the column then constrains no row, whatever
    conditions it had: the rows are those that the other columns let
    through. (The keys of the filter map are distinct, as those of an
    object are.) *)
Theorem addFilterCondition_unconstrains (columnKey : string) (s : State)
    (rows : list row) :
  NoDup (map fst (columnFilters s)) ->
  filterStage (columnFilters (addFilterCondition columnKey s)) rows
  = filterStage (withoutColumn columnKey (columnFilters s)) rows.
Proof.
  intros Hnd. rewrite !filterStage_filter. apply filter_ext. intros r.
  cbn [addFilterCondition columnFilters set_columnFilters].
  apply forallb_setEntry_passing; [exact Hnd | apply entryPasses_with_blank].
Qed.

Lemma addFilterCondition_unconstrains_witness :
  filterStage (columnFilters (addFilterCondition "brand" visaOnly))
    Sample.cards
  = Sample.cards.
Proof.
  rewrite (addFilterCondition_unconstrains "brand" visaOnly Sample.cards).
  - reflexivity.
  - cbn. apply NoDup_cons. split; [apply not_elem_of_nil | apply NoDup_nil_2].
Defined.

(** X9. Adding a condition to a column and removing it again restores the
    filter: the column has the conditions it had (none, if it had no
    entry), every other column is untouched, and the filter stage keeps
    the rows it kept before. *)
Theorem removeFilterCondition_undoes_add (columnKey : string) (s : State) :
  let old := default [] (lookupEntry columnKey (columnFilters s)) in
  let s' :=
    removeFilterCondition columnKey (length old)
      (addFilterCondition columnKey s) in
  lookupEntry columnKey (columnFilters s') = Some old /\
  (forall k, k <> columnKey ->
     lookupEntry k (columnFilters s') = lookupEntry k (columnFilters s)) /\
  (forall rows,
     filterStage (columnFilters s') rows = filterStage (columnFilters s) rows).
Proof.
  intros old s'.
  assert (Hs' : columnFilters s' = setEntry columnKey old (columnFilters s)).
  { unfold s', removeFilterCondition, addFilterCondition.
    cbn [columnFilters set_columnFilters].
    rewrite lookupEntry_setEntry_eq. cbn [default from_option id].
    rewrite sliceAll_id. fold old. rewrite splice1_snoc.
    apply setEntry_setEntry. }
  rewrite Hs'. split; [apply lookupEntry_setEntry_eq|]. split.
  - intros k Hk. now apply lookupEntry_setEntry_ne.
  - intros rows. rewrite !filterStage_filter. apply filter_ext. intros r.
    apply forallb_setEntry_same.
Qed.

(** ** The sort header *)

(** X10. Clicks on the header of a sortable column whose key is not empty
    go round in three steps: from no sort to ascending on that column, to
    descending, and back to no sort, where the state is the one before the
    first click. A click on a column that is not marked sortable changes
    nothing. *)
Theorem headerClick_cycle (col : ColumnConfig) (s : State) :
  key col <> EmptyString ->
  sortState s = unsorted ->
  (sortable col = Some true ->
   sortState (headerClick col s)
   = {| sort_key := key col; dir := Some asc |} /\
   sortState (headerClick col (headerClick col s))
   = {| sort_key := key col; dir := Some desc |} /\
   headerClick col (headerClick col (headerClick col s)) = s)
  /\ (sortable col <> Some true -> headerClick col s = s).
Proof.
  intros Hkey Hun. split.
  - intros Hsortable. unfold headerClick. rewrite Hsortable.
    cbn [default from_option id sortState set_sortState].
    rewrite Hun. cbn [sort_key dir unsorted].
    destruct (String.eqb_spec EmptyString (key col)) as [He | _];
      [now destruct Hkey|].
    cbn [negb sort_key dir]. rewrite String.eqb_refl. cbn [negb sort_key dir].
    split; [reflexivity|]. split; [reflexivity|].
    destruct s; cbn in *. rewrite String.eqb_refl. now subst.
  - intros Hnot. unfold headerClick.
    destruct (sortable col) as [[|]|]; [now destruct Hnot | reflexivity..].
Qed.

Lemma headerClick_cycle_witness :
  sortState (headerClick (Sample.column "bin" TNumber)
               (headerClick (Sample.column "bin" TNumber) Sample.initial))
  = {| sort_key := "bin"; dir := Some desc |}.
Proof.
  destruct (headerClick_cycle (Sample.column "bin" TNumber) Sample.initial
              ltac:(discriminate) eq_refl) as [Hcycle _].
  exact (proj1 (proj2 (Hcycle eq_refl))).
Defined.

(** ** Column visibility *)

Lemma fold_insert_lookup_absent (f : ColumnConfig -> bool)
    (l : list ColumnConfig) : forall (m : gmap string bool) (k : string),
  ~ In k (map key l) ->
  fold_left (fun m c => <[key c := f c]> m) l m !! k = m !! k.
Proof.
  induction l as [|c l IH]; intros m k Hk; cbn; [reflexivity|].
  rewrite IH by (intros Hin; apply Hk; now right).
  apply lookup_insert_ne. intros Heq. apply Hk. now left.
Qed.

Lemma fold_insert_lookup_present (f : ColumnConfig -> bool)
    (l : list ColumnConfig) : forall (m : gmap string bool) (c : ColumnConfig),
  NoDup (map key l) -> In c l ->
  fold_left (fun m c => <[key c := f c]> m) l m !! key c = Some (f c).
Proof.
  induction l as [|c0 l IH]; intros m c Hnd Hin; [destruct Hin|].
  cbn in Hnd. apply NoDup_cons in Hnd as [Hc0 Hnd]. cbn.
  destruct Hin as [-> | Hin].
  - rewrite fold_insert_lookup_absent.
    + apply lookup_insert_eq.
    + intros Hk. apply Hc0. now apply list_elem_of_In.
  - now apply IH.
Qed.

Lemma filter_none {A : Type} (f : A -> bool) (l : list A) :
  (forall x, In x l -> f x = false) -> List.filter f l = [].
Proof.
  induction l as [|x l IH]; intros Hf; cbn; [reflexivity|].
  rewrite (Hf x) by now left. apply IH. intros y Hy. apply Hf. now right.
Qed.

(** X11. When the keys of the columns are distinct and none of them is
    [__proto__], the table mounts showing the columns that the
    configuration does not mark [visible: false], in the order of the
    configuration. *)
Theorem visibleColumns_on_mount (cfg : TableConfig) (s : State) :
  NoDup (map key (columns cfg)) ->
  (forall c, In c (columns cfg) -> key c <> protoKey) ->
  columnVisible s = initColumnVisible cfg ->
  visibleColumns cfg s = List.filter shownByConfig (columns cfg).
Proof.
  intros Hnd _ Hinit. unfold visibleColumns. rewrite Hinit.
  apply filter_ext_in. intros c Hc. unfold initColumnVisible.
  rewrite (fold_insert_lookup_present shownByConfig (columns cfg) ∅ c Hnd Hc).
  reflexivity.
Qed.

Lemma visibleColumns_on_mount_witness :
  visibleColumns cfgHidingBin mountedHidingBin = [Sample.column "brand" TText].
Proof.
  rewrite (visibleColumns_on_mount cfgHidingBin mountedHidingBin).
  - reflexivity.
  - cbn. apply NoDup_cons. split.
    + intros Hin. apply list_elem_of_In in Hin.
      destruct Hin as [Heq | []]. discriminate Heq.
    + apply NoDup_cons. split; [apply not_elem_of_nil | apply NoDup_nil_2].
  - intros c [<- | [<- | []]]; discriminate.
  - reflexivity.
Defined.

Lemma visibleColumns_hideAllColumns (cfg : TableConfig) (s : State) :
  visibleColumns cfg (hideAllColumns s) = [].
Proof.
  unfold visibleColumns, hideAllColumns. cbn [columnVisible set_columnVisible].
  apply filter_none. intros c _. rewrite lookup_fmap.
  now destruct (columnVisible s !! key c).
Qed.

(** X12. For every configured column whose key has an entry in the
    visibility map (each has one from the mount on) and is not
    [__proto__]: after [Show all cols] the column is visible, also when
    the configuration hides it, and after [Hide all cols] it is not
    visible. *)
Theorem hide_all_and_show_all (cfg : TableConfig) (s : State)
    (c : ColumnConfig) :
  In c (columns cfg) ->
  key c <> protoKey ->
  is_Some (columnVisible s !! key c) ->
  In c (visibleColumns cfg (showAllColumns s)) /\
  ~ In c (visibleColumns cfg (hideAllColumns s)).
Proof.
  intros Hc _ [b Hb]. split.
  - apply visibleColumns_spec. split; [exact Hc|].
    unfold showAllColumns. cbn [columnVisible set_columnVisible].
    now rewrite lookup_fmap, Hb.
  - now rewrite visibleColumns_hideAllColumns.
Qed.

Lemma hide_all_and_show_all_witness :
  In (Sample.column "brand" TText)
    (visibleColumns cfgHidingBin (showAllColumns mountedHidingBin)) /\
  ~ In (Sample.column "brand" TText)
      (visibleColumns cfgHidingBin (hideAllColumns mountedHidingBin)).
Proof.
  apply (hide_all_and_show_all cfgHidingBin mountedHidingBin
           (Sample.column "brand" TText)).
  - right. now left.
  - discriminate.
  - vm_compute. eauto.
Defined.

Section VisibilityAndRows.
Context `{Host}.

(** X13. Visibility only matters to the search. While the effective
    search term is empty, the filtered rows are the same whatever columns
    are shown: the conditions on a hidden column go on filtering, and a
    sort on a hidden column goes on sorting. *)
Theorem visibility_only_affects_search (p : Props) (s : State)
    (m : gmap string bool) :
  debouncedSearch s = EmptyString ->
  filteredRows p (set_columnVisible m s) = filteredRows p s.
Proof.
  intros Hterm. unfold filteredRows, searchStage.
  cbn [debouncedSearch set_columnVisible columnFilters sortState].
  now rewrite Hterm.
Qed.

(** X14. With a search term in effect and no column visible, no row is
    left: the search looks at visible columns only. *)
Theorem search_with_no_visible_column (p : Props) (s : State) :
  debouncedSearch s <> EmptyString ->
  visibleColumns (config p) s = [] ->
  filteredRows p s = [].
Proof.
  intros Hterm Hvis. apply truthy_spec in Hterm.
  unfold filteredRows. rewrite Hvis. unfold searchStage. rewrite Hterm.
  rewrite (filter_none (searchMatches [] (debouncedSearch s)))
    by reflexivity.
  rewrite filterStage_filter. cbn [List.filter].
  unfold sortStage. now destruct (sortActive (sortState s)).
Qed.

End VisibilityAndRows.

Lemma visibility_only_affects_search_witness :
  @filteredRows Sample.host Sample.props
    (set_columnVisible ∅ sortedByBin)
  = @filteredRows Sample.host Sample.props sortedByBin.
Proof.
  now apply (@visibility_only_affects_search Sample.host Sample.props
               sortedByBin ∅).
Defined.

Lemma search_with_no_visible_column_witness :
  @filteredRows Sample.host Sample.props (hideAllColumns brandHidden) = [].
Proof.
  apply (@search_with_no_visible_column Sample.host Sample.props
           (hideAllColumns brandHidden)).
  - discriminate.
  - reflexivity.
Defined.

(** ** Selection without the shift key *)

Lemma delete_spec (sel : list Z) (i j : Z) :
  In j (delete sel i) <-> In j sel /\ j <> i.
Proof.
  unfold delete. rewrite filter_In, negb_true_iff, Z.eqb_neq. reflexivity.
Qed.

Lemma fold_delete_spec (l : list Z) : forall (sel : list Z) (j : Z),
  In j (fold_left delete l sel) <-> In j sel /\ ~ In j l.
Proof.
  induction l as [|i l IH]; intros sel j; cbn.
  - tauto.
  - rewrite IH, delete_spec. intuition congruence.
Qed.

Lemma sole_member_spec (sel : list Z) (i : Z) :
  has sel i && (size sel =? 1) = true <-> sel = [i].
Proof.
  rewrite andb_true_iff, has_spec, Z.eqb_eq. unfold size. split.
  - intros [Hin Hlen]. destruct sel as [|x [|y sel]]; cbn in Hlen; try lia.
    destruct Hin as [-> | []]. reflexivity.
  - intros ->. split; [now left | reflexivity].
Qed.

(** X15. A click with the multi-select key (control or meta) and without
    shift flips the clicked row alone: afterwards it is selected exactly
    when it was not, and every other row is selected exactly when it
    was. *)
Theorem ctrl_click_flips_one (sel : list Z) (i : Z) (ev : MouseEvent) :
  shiftKey ev = false ->
  ctrlKey ev || metaKey ev = true ->
  forall j,
    In j (selectionUpdater i (Some ev) sel) <->
    (j = i /\ ~ In i sel) \/ (j <> i /\ In j sel).
Proof.
  intros Hshift Hctrl j. unfold selectionUpdater.
  cbn [shiftPressed ctrlOrMetaPressed]. rewrite Hshift, Hctrl. cbn [andb].
  destruct (has sel i) eqn:Hhas.
  - apply has_spec in Hhas. rewrite delete_spec.
    destruct (Z.eq_dec j i) as [-> | Hne]; tauto.
  - assert (Hnot : ~ In i sel).
    { intros Hin. apply has_spec in Hin. congruence. }
    rewrite add_spec.
    destruct (Z.eq_dec j i) as [-> | Hne]; tauto.
Qed.

Lemma ctrl_click_flips_one_witness :
  In 4 (selectionUpdater 4 (Some Sample.ctrl) [2; 9]) /\
  ~ In 9 (selectionUpdater 9 (Some Sample.ctrl) [2; 9]).
Proof.
  split.
  - apply (ctrl_click_flips_one [2; 9] 4 Sample.ctrl eq_refl eq_refl 4).
    left. split; [reflexivity|]. cbn. lia.
  - intros Hin.
    apply (ctrl_click_flips_one [2; 9] 9 Sample.ctrl eq_refl eq_refl 9)
      in Hin.
    cbn in Hin. lia.
Defined.

(** X16. A click without modifier keys on the only selected row clears
    the selection; any other click without modifier keys selects the
    clicked row alone. *)
Theorem plain_click_selects_or_clears (sel : list Z) (i : Z) :
  selectionUpdater i None sel = (if decide (sel = [i]) then [] else [i]) /\
  selectionUpdater i
    (Some {| shiftKey := false; ctrlKey := false; metaKey := false |}) sel
  = selectionUpdater i None sel.
Proof.
  split; [|reflexivity].
  unfold selectionUpdater. cbn [shiftPressed ctrlOrMetaPressed andb].
  destruct (has sel i && (size sel =? 1)) eqn:Hsole.
  - apply sole_member_spec in Hsole. now rewrite decide_True.
  - rewrite decide_False; [reflexivity|].
    intros Heq. apply sole_member_spec in Heq. congruence.
Qed.

Section SelectAll.
Context `{Host}.

(** X17. The select-all box works on the rows of the page shown.
    Checking it adds the global indices of that page to the selection and
    leaves the others as they are; unchecking removes those indices and no
    other. After checking, the box shows checked exactly when the page has
    rows. *)
Theorem toggleSelectAllOnPage_page_only (p : Props) (s : State) :
  let start := (page s - 1) * pageSize s in
  let n := Z.of_nat (length (pageRows p s)) in
  (forall j,
     In j (selectedRows (toggleSelectAllOnPage p true s)) <->
     In j (selectedRows s) \/ (start <= j < start + n)) /\
  (forall j,
     In j (selectedRows (toggleSelectAllOnPage p false s)) <->
     In j (selectedRows s) /\ ~ (start <= j < start + n)) /\
  selectAllChecked p (toggleSelectAllOnPage p true s) = (0 <? n).
Proof.
  intros start n. split; [|split].
  - intros j. cbn [toggleSelectAllOnPage selectedRows set_selectedRows].
    now rewrite fold_add_spec, In_seqZ.
  - intros j. cbn [toggleSelectAllOnPage selectedRows set_selectedRows].
    now rewrite fold_delete_spec, In_seqZ.
  - unfold selectAllChecked.
    change (pageRows p (toggleSelectAllOnPage p true s)) with (pageRows p s).
    fold n. destruct (0 <? n); [|reflexivity]. cbn [andb].
    apply forallb_forall. intros i Hi. apply In_seqZ in Hi.
    apply has_spec.
    cbn [toggleSelectAllOnPage selectedRows set_selectedRows page pageSize].
    apply fold_add_spec. right. apply In_seqZ. fold start n. lia.
Qed.

End SelectAll.

(** ** The search box and its timer *)

Lemma typeAll_snoc (texts : list string) (text : string) (ss : Session) :
  typeAll (texts ++ [text]) ss = onSearchChange text (typeAll texts ss).
Proof. unfold typeAll. now rewrite fold_left_app. Qed.

Lemma typeAll_debouncedSearch (texts : list string) (ss : Session) :
  debouncedSearch (state (typeAll texts ss)) = debouncedSearch (state ss).
Proof.
  induction texts as [|text texts IH] using rev_ind; [reflexivity|].
  rewrite typeAll_snoc. exact IH.
Qed.

Lemma typeAll_timer (texts : list string) (ss : Session) :
  timer (typeAll texts ss) = Some (searchTerm (state (typeAll texts ss))) \/
  (timer (typeAll texts ss) = timer ss /\
   searchTerm (state (typeAll texts ss)) = searchTerm (state ss)).
Proof.
  induction texts as [|text texts IH] using rev_ind; [now right|].
  rewrite typeAll_snoc. unfold onSearchChange at 1 2 3.
  cbn [timer state searchTerm set_page set_searchTerm].
  destruct (String.eqb_spec text (searchTerm (state (typeAll texts ss))))
    as [Heq | Hne]; [|now left].
  destruct IH as [IH | [IHt IHs]].
  - left. now rewrite IH, Heq.
  - right. split; [exact IHt | now rewrite Heq].
Qed.

Lemma typeAll_searchTerm (texts : list string) (t : string) (ss : Session) :
  last texts = Some t -> searchTerm (state (typeAll texts ss)) = t.
Proof.
  intros Hlast. apply last_Some in Hlast as [texts' ->].
  now rewrite typeAll_snoc.
Qed.

(** X18. Only the last text typed within the quiet period reaches the
    pipeline. While texts are typed the effective search term stays what
    it was; when the pending timeout then runs, the effective term is the
    last text, trimmed and lowercased, and nothing is left pending. (The
    last text differs from what the box held before the typing.) *)
Theorem debounce_keeps_last (texts : list string) (t : string)
    (ss : Session) :
  last texts = Some t ->
  searchTerm (state ss) <> t ->
  let typed := typeAll texts ss in
  debouncedSearch (state typed) = debouncedSearch (state ss) /\
  debouncedSearch (state (timerFires typed)) = JS.toLowerCase (JS.trim t) /\
  timer (timerFires typed) = None.
Proof.
  intros Hlast Hne typed.
  split; [apply typeAll_debouncedSearch|].
  pose proof (typeAll_searchTerm texts t ss Hlast) as Hterm.
  destruct (typeAll_timer texts ss) as [Htimer | [_ Hsame]].
  - fold typed in Htimer, Hterm. unfold timerFires. rewrite Htimer, Hterm.
    split; reflexivity.
  - congruence.
Qed.

Lemma debounce_keeps_last_witness :
  debouncedSearch (state (timerFires (typeAll typedAbc mounted))) = "abc" /\
  debouncedSearch (state (typeAll typedAbc mounted)) = "".
Proof.
  destruct (debounce_keeps_last typedAbc "abc" mounted eq_refl
              ltac:(discriminate)) as (Hbefore & Hafter & _).
  split; [exact Hafter | exact Hbefore].
Defined.

(** Page 2 of the sample with rows 1, 6 and 3 selected: the box adds row
    5, the other row of page 2; unchecking leaves the rows of page 1. *)
Example toggleSelectAllOnPage_pageTwo :
  selectedRows (@toggleSelectAllOnPage Sample.host Sample.props true pageTwo)
  = [1; 6; 3; 5] /\
  selectedRows (@toggleSelectAllOnPage Sample.host Sample.props false pageTwo)
  = [1; 3].
Proof. split; reflexivity. Qed.

(** ** CSV lines *)

Lemma append_nil_r (s : string) : (s ++ EmptyString)%string = s.
Proof. induction s as [|c s IH]; [reflexivity|]. now rewrite append_cons, IH. Qed.

Lemma append_assoc (s t u : string) :
  ((s ++ t) ++ u)%string = (s ++ (t ++ u))%string.
Proof.
  induction s as [|c s IH]; [reflexivity|]. now rewrite !append_cons, IH.
Qed.

Lemma pushChar_append (s t : string) (c : ascii) :
  (pushChar s c ++ t)%string = (s ++ String c t)%string.
Proof. unfold pushChar. now rewrite append_assoc. Qed.

(** Inside quotes the loop reads an escaped field up to its closing
    quote, when no quote follows that one. *)
Lemma parseLineLoop_quoted (s : string) :
  forall (rest : string) (fields : list string) (current : string),
    String.prefix (String dquote EmptyString) rest = false ->
    parseLineLoop (escapeQuotes s ++ String dquote rest) fields current true
    = parseLineLoop rest fields (current ++ s)%string false.
Proof.
  induction s as [|c s IH]; intros rest fields current Hrest.
  - rewrite append_nil_r.
    change (escapeQuotes EmptyString ++ String dquote rest)%string
      with (String dquote rest).
    cbn [parseLineLoop]. rewrite Ascii.eqb_refl.
    destruct rest as [|c' rest']; [reflexivity|].
    cbn in Hrest. destruct (ascii_dec dquote c') as [<- | Hne].
    + now destruct rest'.
    + destruct (Ascii.eqb_spec c' dquote) as [-> | _]; [now destruct Hne|].
      reflexivity.
  - cbn [escapeQuotes]. destruct (Ascii.eqb_spec c dquote) as [-> | Hc].
    + rewrite !append_cons. cbn [parseLineLoop].
      rewrite Ascii.eqb_refl. cbn [andb].
      rewrite IH by exact Hrest. now rewrite pushChar_append.
    + rewrite append_cons. cbn [parseLineLoop].
      destruct (Ascii.eqb_spec c dquote) as [Heq | _]; [now destruct Hc|].
      rewrite andb_false_r.
      rewrite IH by exact Hrest. now rewrite pushChar_append.
Qed.

Lemma parseLineLoop_open (body : string) (fields : list string)
    (current : string) :
  parseLineLoop (String dquote body) fields current false
  = parseLineLoop body fields current true.
Proof. cbn [parseLineLoop]. rewrite Ascii.eqb_refl. now destruct body. Qed.

Lemma parseLineLoop_field (s rest : string) (fields : list string) :
  String.prefix (String dquote EmptyString) rest = false ->
  parseLineLoop (quoted (escapeQuotes s) ++ rest) fields EmptyString false
  = parseLineLoop rest fields s false.
Proof.
  intros Hrest. unfold quoted. rewrite append_cons, append_assoc, append_cons.
  change (EmptyString ++ rest)%string with rest.
  rewrite parseLineLoop_open. now rewrite parseLineLoop_quoted.
Qed.

Lemma parseLineLoop_fields (values : list string) :
  values <> [] ->
  forall fields : list string,
    parseLineLoop
      (join (String comma EmptyString)
         (map (fun v => quoted (escapeQuotes v)) values))
      fields EmptyString false
    = (fields ++ values)%list.
Proof.
  induction values as [|v values IH]; intros Hne fields; [now destruct Hne|].
  destruct values as [|w values].
  - cbn [map join].
    rewrite <- (append_nil_r (quoted (escapeQuotes v))).
    now rewrite parseLineLoop_field.
  - change (join (String comma EmptyString)
              (map (fun v => quoted (escapeQuotes v)) (v :: w :: values)))
      with (quoted (escapeQuotes v)
            ++ String comma
                 (join (String comma EmptyString)
                    (map (fun v => quoted (escapeQuotes v)) (w :: values))))%string.
    rewrite parseLineLoop_field by reflexivity.
    cbn [parseLineLoop]. change (Ascii.eqb comma dquote) with false.
    rewrite Ascii.eqb_refl. cbn [andb negb].
    rewrite IH by discriminate. now rewrite <- app_assoc.
Qed.

(** X19. [parseLine] reads back what [rowsToCsv] writes. A line of the
    export, parsed, gives the cells of the row under the exported columns,
    in order, each trimmed: commas and double quotes inside a cell come
    back as they were. (At least one column is exported.) *)
Theorem parseLine_csvLine (cols : list ColumnConfig) (r : row) :
  cols <> [] ->
  parseLine (csvLine cols r) = map (fun c => JS.trim (cellString r c)) cols.
Proof.
  intros Hcols. unfold parseLine, csvLine.
  rewrite <- (map_map (cellString r) (fun v => quoted (escapeQuotes v))).
  rewrite parseLineLoop_fields by (destruct cols; [done | discriminate]).
  cbn [app]. now rewrite map_map.
Qed.

Lemma parseLine_csvLine_witness :
  parseLine (csvLine (columns Sample.cfg) awkwardCard)
  = ["34,00"; String dquote ("Amex" ++ String dquote ", gold")%string].
Proof.
  rewrite (parseLine_csvLine (columns Sample.cfg) awkwardCard)
    by discriminate.
  reflexivity.
Defined.

(** ** The records of [parseCSV] *)



Lemma assign_insert (k : string) (v : value) (obj : row) :
  k <> protoKey -> assign k v obj = <[k := v]> obj.
Proof.
  intros Hk. unfold assign. now destruct (String.eqb_spec k protoKey).
Qed.

Lemma cell_string (fields : list string) (i : nat) :
  String_ (orEmpty (cell fields i)) = default EmptyString (fields !! i).
Proof. unfold cell. now destruct (fields !! i). Qed.








(** A header [__proto__] gives no field: the text with the lines
    [__proto__,b] and [1,2] has one record, with the field [b] alone. *)
Example parseCSV_proto_header :
  parseCSV ("__proto__,b" ++ String LF "1,2")%string
  = [<["b" := VString "2"]> (∅ : row)].
Proof. vm_compute. reflexivity. Qed.

(** ** [trim] *)

Lemma revString_acc (s : string) : forall acc : string,
  JS.revString s acc = (JS.revString s EmptyString ++ acc)%string.
Proof.
  induction s as [|c s IH]; intros acc; [reflexivity|].
  cbn [JS.revString]. rewrite (IH (String c acc)), (IH (String c EmptyString)).
  now rewrite append_assoc.
Qed.

Lemma revString_append (s t : string) :
  JS.revString (s ++ t) EmptyString
  = (JS.revString t EmptyString ++ JS.revString s EmptyString)%string.
Proof.
  induction s as [|c s IH].
  - now rewrite append_nil_r.
  - rewrite append_cons. cbn [JS.revString].
    rewrite (revString_acc (s ++ t)), (revString_acc s), IH.
    now rewrite append_assoc.
Qed.

Lemma revString_involutive (s : string) :
  JS.revString (JS.revString s EmptyString) EmptyString = s.
Proof.
  induction s as [|c s IH]; [reflexivity|].
  cbn [JS.revString].
  rewrite (revString_acc s (String c EmptyString)), revString_append, IH.
  reflexivity.
Qed.

Lemma trimStart_idempotent (s : string) :
  JS.trimStart (JS.trimStart s) = JS.trimStart s.
Proof.
  induction s as [|c s IH]; [reflexivity|]. cbn [JS.trimStart].
  destruct (JS.isWhiteSpace c) eqn:Hc; [exact IH|].
  cbn [JS.trimStart]. now rewrite Hc.
Qed.

Lemma trimStart_suffix (s : string) :
  exists w, s = (w ++ JS.trimStart s)%string.
Proof.
  induction s as [|c s [w IH]]; [now exists EmptyString|].
  cbn [JS.trimStart]. destruct (JS.isWhiteSpace c).
  - exists (String c w). now rewrite append_cons, <- IH.
  - now exists EmptyString.
Qed.

Lemma trimStart_length (s : string) :
  (String.length (JS.trimStart s) <= String.length s)%nat.
Proof.
  induction s as [|c s IH]; [reflexivity|]. cbn [JS.trimStart].
  destruct (JS.isWhiteSpace c); cbn [String.length]; lia.
Qed.

Lemma trimStart_fixed_head (c : ascii) (s : string) :
  JS.trimStart (String c s) = String c s -> JS.isWhiteSpace c = false.
Proof.
  cbn [JS.trimStart]. destruct (JS.isWhiteSpace c); [|reflexivity].
  intros Heq. pose proof (trimStart_length s) as Hlen.
  rewrite Heq in Hlen. cbn [String.length] in Hlen. lia.
Qed.

Lemma trimEnd_idempotent (s : string) :
  JS.trimEnd (JS.trimEnd s) = JS.trimEnd s.
Proof.
  unfold JS.trimEnd. now rewrite revString_involutive, trimStart_idempotent.
Qed.

Lemma trimEnd_prefix (s : string) :
  exists w, s = (JS.trimEnd s ++ w)%string.
Proof.
  unfold JS.trimEnd.
  destruct (trimStart_suffix (JS.revString s EmptyString)) as [w Hw].
  exists (JS.revString w EmptyString).
  rewrite <- revString_append, <- Hw. symmetry. apply revString_involutive.
Qed.

Lemma trimStart_trimEnd (s : string) :
  JS.trimStart s = s -> JS.trimStart (JS.trimEnd s) = JS.trimEnd s.
Proof.
  intros Hs. destruct (trimEnd_prefix s) as [w Hw].
  destruct (JS.trimEnd s) as [|c u]; [reflexivity|].
  rewrite append_cons in Hw. rewrite Hw in Hs.
  apply trimStart_fixed_head in Hs. cbn [JS.trimStart]. now rewrite Hs.
Qed.

Lemma trim_idempotent (s : string) : JS.trim (JS.trim s) = JS.trim s.
Proof.
  unfold JS.trim.
  rewrite (trimStart_trimEnd (JS.trimStart s)) by apply trimStart_idempotent.
  apply trimEnd_idempotent.
Qed.

(** ** Export and read back *)

Lemma chars_append (s t : string) :
  list_ascii_of_string (s ++ t)
  = (list_ascii_of_string s ++ list_ascii_of_string t)%list.
Proof.
  induction s as [|c s IH]; [reflexivity|].
  rewrite append_cons. cbn. now rewrite IH.
Qed.

Lemma lacks_append (c : ascii) (s t : string) :
  lacks c (s ++ t) <-> lacks c s /\ lacks c t.
Proof. unfold lacks. rewrite chars_append, in_app_iff. tauto. Qed.

Lemma lacks_cons (c d : ascii) (s : string) :
  lacks c (String d s) <-> d <> c /\ lacks c s.
Proof. unfold lacks. cbn. tauto. Qed.

Lemma lacks_escapeQuotes (c : ascii) (s : string) :
  c <> dquote -> lacks c s -> lacks c (escapeQuotes s).
Proof.
  intros Hc. induction s as [|d s IH]; intros Hs; [exact Hs|].
  apply lacks_cons in Hs as [Hd Hs]. cbn [escapeQuotes].
  destruct (Ascii.eqb_spec d dquote) as [-> | _].
  - apply lacks_cons. split; [congruence|].
    apply lacks_cons. split; [congruence | now apply IH].
  - apply lacks_cons. split; [exact Hd | now apply IH].
Qed.

Lemma lacks_quoted (c : ascii) (s : string) :
  c <> dquote -> lacks c s -> lacks c (quoted s).
Proof.
  intros Hc Hs. unfold quoted. apply lacks_cons. split; [congruence|].
  apply lacks_append. split; [exact Hs|].
  apply lacks_cons. split; [congruence | intros []].
Qed.

Lemma lacks_join (c : ascii) (sep : string) (l : list string) :
  lacks c sep -> (forall x, In x l -> lacks c x) -> lacks c (join sep l).
Proof.
  intros Hsep. induction l as [|x l IH]; intros Hl; [intros []|].
  destruct l as [|y l]; [apply Hl; now left|].
  change (join sep (x :: y :: l)) with (x ++ sep ++ join sep (y :: l))%string.
  apply lacks_append. split; [apply Hl; now left|].
  apply lacks_append. split; [exact Hsep|].
  apply IH. intros z Hz. apply Hl. now right.
Qed.

Lemma escapeQuotes_without_quotes (s : string) :
  lacks dquote s -> escapeQuotes s = s.
Proof.
  induction s as [|d s IH]; intros Hs; [reflexivity|].
  apply lacks_cons in Hs as [Hd Hs]. cbn [escapeQuotes].
  destruct (Ascii.eqb_spec d dquote) as [-> | _]; [now destruct Hd|].
  now rewrite IH.
Qed.

Lemma splitLoop_line (line : string) : forall (current rest : string),
  lacks LF line -> lacks CR line ->
  splitLoop (line ++ String LF rest) current
  = (current ++ line)%string :: splitLoop rest EmptyString.
Proof.
  induction line as [|c line IH]; intros current rest Hlf Hcr.
  - rewrite append_nil_r. cbn. reflexivity.
  - apply lacks_cons in Hlf as [Hc1 Hlf]. apply lacks_cons in Hcr as [Hc2 Hcr].
    rewrite append_cons. cbn [splitLoop].
    destruct (Ascii.eqb_spec c LF) as [? | _]; [congruence|].
    destruct (Ascii.eqb_spec c CR) as [? | _]; [congruence|].
    rewrite IH by assumption. now rewrite pushChar_append.
Qed.

Lemma splitLoop_last (line : string) : forall current : string,
  lacks LF line -> lacks CR line ->
  splitLoop line current = [(current ++ line)%string].
Proof.
  induction line as [|c line IH]; intros current Hlf Hcr.
  - now rewrite append_nil_r.
  - apply lacks_cons in Hlf as [Hc1 Hlf]. apply lacks_cons in Hcr as [Hc2 Hcr].
    cbn [splitLoop].
    destruct (Ascii.eqb_spec c LF) as [? | _]; [congruence|].
    destruct (Ascii.eqb_spec c CR) as [? | _]; [congruence|].
    rewrite IH by assumption. now rewrite pushChar_append.
Qed.

Lemma splitLines_join (lines : list string) :
  lines <> [] ->
  (forall l, In l lines -> lacks LF l /\ lacks CR l) ->
  splitLines (join (String LF EmptyString) lines) = lines.
Proof.
  unfold splitLines.
  induction lines as [|l lines IH]; intros Hne Hl; [now destruct Hne|].
  destruct (Hl l ltac:(now left)) as [Hlf Hcr].
  destruct lines as [|l' lines].
  - cbn [join]. now rewrite splitLoop_last.
  - change (join (String LF EmptyString) (l :: l' :: lines))
      with (l ++ String LF (join (String LF EmptyString) (l' :: lines)))%string.
    rewrite splitLoop_line by assumption. cbn [append]. f_equal.
    apply IH; [discriminate|]. intros z Hz. apply Hl. now right.
Qed.

Lemma join_quoted_head (sep : string) (f : string -> string)
    (values : list string) :
  values <> [] ->
  exists u, join sep (map (fun v => quoted (f v)) values) = String dquote u.
Proof.
  destruct values as [|v [|w values]]; intros Hne; [now destruct Hne | |].
  - cbn [map join]. unfold quoted. eauto.
  - change (join sep (map (fun v => quoted (f v)) (v :: w :: values)))
      with (quoted (f v)
            ++ sep ++ join sep (map (fun v => quoted (f v)) (w :: values)))%string.
    unfold quoted at 1. rewrite append_cons. eauto.
Qed.

Lemma recordOf_columns (hf ff : ColumnConfig -> string)
    (cols : list ColumnConfig) :
  (forall c, In c cols -> hf c <> protoKey) ->
  forall (pre : list ColumnConfig) (obj : row),
    fold_left
      (recordStep (map hf (pre ++ cols)) (map ff (pre ++ cols)))
      (seq (length pre) (length cols)) obj
    = fold_left
        (fun (obj : row) (c : ColumnConfig) =>
           <[hf c := VString (JS.trim (ff c))]> obj)
        cols obj.
Proof.
  induction cols as [|c cols IH]; intros Hproto pre obj; [reflexivity|].
  cbn [length seq fold_left].
  assert (Hh : map hf (pre ++ c :: cols) !! length pre = Some (hf c)).
  { rewrite map_app. cbn [map]. apply list_lookup_middle.
    now rewrite length_map. }
  assert (Hf : map ff (pre ++ c :: cols) !! length pre = Some (ff c)).
  { rewrite map_app. cbn [map]. apply list_lookup_middle.
    now rewrite length_map. }
  assert (Hstep : recordStep (map hf (pre ++ c :: cols))
                    (map ff (pre ++ c :: cols)) obj (length pre)
                  = <[hf c := VString (JS.trim (ff c))]> obj).
  { unfold recordStep. rewrite Hh, cell_string, Hf.
    apply assign_insert. apply Hproto. now left. }
  rewrite Hstep.
  specialize (IH (fun c' Hc' => Hproto c' (or_intror Hc'))
                (pre ++ [c])%list).
  rewrite <- app_assoc in IH. cbn [app] in IH.
  rewrite length_app in IH. cbn [length] in IH.
  replace (length pre + 1)%nat with (S (length pre)) in IH by lia.
  apply IH.
Qed.

Lemma fold_left_pointwise {A B : Type} (f g : A -> B -> A) (l : list B) :
  (forall a b, f a b = g a b) ->
  forall a, fold_left f l a = fold_left g l a.
Proof.
  intros Hfg. induction l as [|b l IH]; intros a; [reflexivity|].
  cbn. now rewrite Hfg, IH.
Qed.

Lemma recordOf_exported (cols : list ColumnConfig) (r : row) :
  (forall c, In c cols -> JS.toLowerCase (JS.trim (label c)) <> protoKey) ->
  recordOf
    (map (fun c => JS.toLowerCase (JS.trim (JS.trim (label c)))) cols)
    (map (fun c => JS.trim (cellString r c)) cols)
  = exportedRecord cols r.
Proof.
  intros Hproto. unfold recordOf, exportedRecord. rewrite length_map.
  pose proof (recordOf_columns
                (fun c => JS.toLowerCase (JS.trim (JS.trim (label c))))
                (fun c => JS.trim (cellString r c)) cols) as Hrec.
  specialize (Hrec ltac:(intros c Hc; cbn beta; rewrite trim_idempotent;
                         now apply Hproto) [] ∅).
  cbn [app length] in Hrec. rewrite Hrec.
  apply fold_left_pointwise. intros obj c.
  now rewrite !trim_idempotent.
Qed.

Lemma csvLine_fields (cols : list ColumnConfig) (r : row) :
  csvLine cols r = csvFields (map (cellString r) cols).
Proof. unfold csvLine, csvFields. now rewrite map_map. Qed.

Lemma csvHeader_fields (cols : list ColumnConfig) :
  (forall c, In c cols -> lacks dquote (label c)) ->
  csvHeader cols = csvFields (map label cols).
Proof.
  intros Hq. unfold csvHeader, csvFields. rewrite map_map. f_equal.
  apply map_ext_in. intros c Hc. fold (label c).
  now rewrite escapeQuotes_without_quotes by now apply Hq.
Qed.

Lemma csvFields_lacks (c : ascii) (values : list string) :
  c <> dquote -> c <> comma ->
  (forall v, In v values -> lacks c v) ->
  lacks c (csvFields values).
Proof.
  intros Hq Hc Hv. unfold csvFields. apply lacks_join.
  - apply lacks_cons. split; [congruence | intros []].
  - intros x Hx. apply in_map_iff in Hx as (v & <- & Hin).
    apply lacks_quoted; [exact Hq|].
    apply lacks_escapeQuotes; [exact Hq | now apply Hv].
Qed.

Lemma csvFields_head (values : list string) :
  values <> [] -> exists u, csvFields values = String dquote u.
Proof. apply join_quoted_head. Qed.

Lemma parseLine_csvFields (values : list string) :
  values <> [] -> parseLine (csvFields values) = map JS.trim values.
Proof.
  intros Hne. unfold parseLine, csvFields.
  now rewrite parseLineLoop_fields by exact Hne.
Qed.

Lemma join_head (sep : string) (c : ascii) (u : string) (l : list string) :
  exists u', join sep (String c u :: l) = String c u'.
Proof.
  destruct l as [|x l]; [now exists u|].
  change (join sep (String c u :: x :: l))
    with (String c u ++ sep ++ join sep (x :: l))%string.
  rewrite append_cons. eauto.
Qed.

Lemma map_nonempty {A B : Type} (f : A -> B) (l : list A) :
  l <> [] -> map f l <> [].
Proof. destruct l; [intros Hl; now destruct Hl | discriminate]. Qed.

(** X21. Reading the export back gives the exported rows. When at least
    one column is exported, no label and no cell holds a line break (LF
    or CR), no label holds a double quote and no label, trimmed and
    lowercased, is [__proto__], [parseCSV] of [rowsToCsv rows cols] has
    one record per row, in order, and the record of a row holds, under
    the lowercased trimmed label of each column, the trimmed cell of the
    row: commas and quotes in cells survive, outer blanks and the case of
    the labels do not. *)
Theorem parseCSV_rowsToCsv (rows : list row) (cols : list ColumnConfig) :
  cols <> [] ->
  (forall c, In c cols ->
     lacks LF (label c) /\ lacks CR (label c) /\ lacks dquote (label c)) ->
  (forall c, In c cols -> JS.toLowerCase (JS.trim (label c)) <> protoKey) ->
  (forall r c, In r rows -> In c cols ->
     lacks LF (cellString r c) /\ lacks CR (cellString r c)) ->
  parseCSV (rowsToCsv rows cols) = map (exportedRecord cols) rows.
Proof.
  intros Hcols Hlabels Hproto Hcells.
  assert (Hhdr : csvHeader cols = csvFields (map label cols)).
  { apply csvHeader_fields. intros c Hc. now apply Hlabels. }
  assert (Hlines : csvLines rows cols
                   = csvFields (map label cols)
                     :: map (fun r => csvFields (map (cellString r) cols)) rows).
  { unfold csvLines. rewrite Hhdr. f_equal.
    apply map_ext. intros r. apply csvLine_fields. }
  assert (Hclean : forall l, In l (csvLines rows cols) ->
                             lacks LF l /\ lacks CR l).
  { rewrite Hlines. intros l [<- | Hl].
    - split; apply csvFields_lacks; try discriminate;
        intros v Hv; apply in_map_iff in Hv as (c & <- & Hc);
        now apply Hlabels.
    - apply in_map_iff in Hl as (r & <- & Hr).
      split; apply csvFields_lacks; try discriminate;
        intros v Hv; apply in_map_iff in Hv as (c & <- & Hc);
        now apply (Hcells r c).
  }
  assert (Hfull : forall l, In l (csvLines rows cols) ->
                            (0 <? String.length l)%nat = true).
  { rewrite Hlines. intros l [<- | Hl].
    - destruct (csvFields_head (map label cols)) as [u ->];
        [now apply map_nonempty | reflexivity].
    - apply in_map_iff in Hl as (r & <- & Hr).
      destruct (csvFields_head (map (cellString r) cols)) as [u ->];
        [now apply map_nonempty | reflexivity]. }
  assert (Htext : truthy (rowsToCsv rows cols) = true).
  { unfold rowsToCsv. rewrite Hlines.
    destruct (csvFields_head (map label cols)) as [u ->];
      [now apply map_nonempty|].
    destruct (join_head (String LF EmptyString) dquote u
                (map (fun r => csvFields (map (cellString r) cols)) rows))
      as [u' ->].
    reflexivity. }
  unfold parseCSV. rewrite Htext. cbn [negb].
  unfold rowsToCsv at 1.
  rewrite splitLines_join; [|unfold csvLines; discriminate | exact Hclean].
  rewrite forallb_filter_id by (apply forallb_forall; exact Hfull).
  rewrite Hlines. cbn [map].
  rewrite parseLine_csvFields by now apply map_nonempty.
  rewrite !map_map. cbn [orEmpty String_].
  apply map_ext. intros r.
  rewrite parseLine_csvFields by now apply map_nonempty.
  rewrite map_map. now apply recordOf_exported.
Qed.

Lemma parseCSV_rowsToCsv_witness :
  parseCSV (rowsToCsv [awkwardCard; visaCard] (columns Sample.cfg))
  = [Sample.card "34,00" (String dquote ("Amex" ++ String dquote ", gold"))%string;
     visaCard].
Proof.
  rewrite (parseCSV_rowsToCsv [awkwardCard; visaCard] (columns Sample.cfg)).
  - vm_compute. reflexivity.
  - discriminate.
  - intros c [<- | [<- | []]]; repeat split; vm_compute;
      intuition discriminate.
  - intros c [<- | [<- | []]]; vm_compute; discriminate.
  - intros r c [<- | [<- | []]] [<- | [<- | []]]; split; vm_compute;
      intuition discriminate.
Defined.
